(** * Level100 Studios component library: interaction logic of the widgets

    A shallow embedding of the event handlers, effects and small state
    machines of the React widgets (Radio, Toast, Select, Menu, Slider,
    Accordion, Pagination, the toast queue and the context hooks).
    JavaScript values are modelled by [jsval]; a handler is a function on
    the widget's state that may throw ([Exc]); an optional callback prop
    [f?.(x)] is modelled by [opt_call], a plain call [f(x)] by [plain_call]. *)

From Stdlib Require Import ZArith List String Ascii Bool Lia Sorting.Sorted.
Import ListNotations.
Set Warnings "-register-all".
Open Scope string_scope.
Open Scope Z_scope.

(** ** JavaScript values *)

Inductive jsval : Type :=
| JUndefined
| JNull
| JBool (b : bool)
| JNum (n : Z)
| JStr (s : string)
| JFun (name : string)                      (* a function value, by name *)
| JArr (items : list jsval)                 (* an array *)
| JObj (fields : list (string * jsval)).    (* an object literal, in key order *)

(** JavaScript truthiness ([!v] is [negb (truthy v)]); every object,
    also the empty object [{}], is truthy. *)
Definition truthy (v : jsval) : bool :=
  match v with
  | JUndefined | JNull => false
  | JBool b => b
  | JNum n => negb (n =? 0)
  | JStr s => negb (String.eqb s "")
  | JFun _ | JArr _ | JObj _ => true
  end.

(** Property read [o.k] / destructuring; missing keys read as [undefined]. *)
Fixpoint assoc_get (fs : list (string * jsval)) (k : string) : jsval :=
  match fs with
  | [] => JUndefined
  | (k', v) :: fs' => if String.eqb k k' then v else assoc_get fs' k
  end.

Definition js_get (o : jsval) (k : string) : jsval :=
  match o with
  | JObj fs => assoc_get fs k
  | _ => JUndefined
  end.

(** Property write [o[k] = v]: an existing key keeps its position. *)
Fixpoint assoc_set (fs : list (string * jsval)) (k : string) (v : jsval)
  : list (string * jsval) :=
  match fs with
  | [] => [(k, v)]
  | (k', v') :: fs' =>
      if String.eqb k k' then (k', v) :: fs' else (k', v') :: assoc_set fs' k v
  end.

(** Object spread [{...a, ...b}]: the keys of [b] are written over [a]. *)
Definition spread (a b : list (string * jsval)) : list (string * jsval) :=
  fold_left (fun acc kv => assoc_set acc (fst kv) (snd kv)) b a.

(** Strict equality [===] on primitives; object and function identity is
    not modelled (two values built separately are distinct). *)
Definition strict_eq (a b : jsval) : bool :=
  match a, b with
  | JUndefined, JUndefined | JNull, JNull => true
  | JBool x, JBool y => Bool.eqb x y
  | JNum x, JNum y => x =? y
  | JStr x, JStr y => String.eqb x y
  | _, _ => false
  end.

(** Decimal rendering of an integer, for template literals. *)
Fixpoint digits_aux (fuel : nat) (n : Z) (acc : string) : string :=
  match fuel with
  | O => acc
  | S f =>
      let acc' := String (ascii_of_nat (48 + Z.to_nat (n mod 10))) acc in
      if n <? 10 then acc' else digits_aux f (n / 10) acc'
  end.

Definition z_to_string (n : Z) : string :=
  if n <? 0 then "-" ++ digits_aux 64 (- n) "" else digits_aux 64 n "".

(** [String(v)], as used by a template literal [`${v}`]. *)
Definition js_to_string (v : jsval) : string :=
  match v with
  | JUndefined => "undefined"
  | JNull => "null"
  | JBool true => "true"
  | JBool false => "false"
  | JNum n => z_to_string n
  | JStr s => s
  | JFun _ => "function"
  | JArr _ => "[array]"
  | JObj _ => "[object Object]"
  end.

(** ** Exceptions *)

Inductive Exc (A : Type) : Type :=
| Ok (a : A)
| Throw (msg : string).
Arguments Ok {A} a.
Arguments Throw {A} msg.

Definition exc_bind {A B} (m : Exc A) (k : A -> Exc B) : Exc B :=
  match m with
  | Ok a => k a
  | Throw e => Throw e
  end.

Notation "x <- m ;; k" := (exc_bind m (fun x => k))
  (at level 61, m at next level, right associativity).

(** ** React contexts

    [createContext(default)] gives a context; the enclosing providers of a
    component are listed innermost first, and [useContext] reads the nearest
    provider of that context, or the default when there is none. *)

Record context := mkContext { ctx_name : string; ctx_default : jsval }.

Definition providers := list (string * jsval).

Fixpoint useContext (c : context) (ps : providers) : jsval :=
  match ps with
  | [] => ctx_default c
  | (n, v) :: ps' => if String.eqb n (ctx_name c) then v else useContext c ps'
  end.

(** [const RadioContext = createContext({});] *)
Definition RadioContext : context := mkContext "RadioContext" (JObj []).

(** [const ToastContext = createContext(null);] *)
Definition ToastContext : context := mkContext "ToastContext" JNull.

(** [const ThemeContext = createContext(null);] *)
Definition ThemeContext : context := mkContext "ThemeContext" JNull.

(** ** Radio and RadioGroup (Radio.jsx) *)

(** The value [RadioGroup] passes to [RadioContext.Provider]. *)
Definition RadioGroup_value (name : string) (selectedValue : jsval)
    (disabled required : bool) : jsval :=
  JObj [("name", JStr name); ("selectedValue", selectedValue);
        ("onChange", JFun "handleChange"); ("disabled", JBool disabled);
        ("required", JBool required)].

(** The providers seen by the children of a [RadioGroup]. *)
Definition RadioGroup_scope (ps : providers) (name : string)
    (selectedValue : jsval) (disabled required : bool) : providers :=
  ("RadioContext", RadioGroup_value name selectedValue disabled required) :: ps.

(** The attributes of the [<input type="radio">] a [Radio] renders. *)
Record radio_markup := mkRadioMarkup {
  rm_id : string;
  rm_name : jsval;
  rm_checked : bool;
  rm_disabled : bool;
  rm_required : jsval
}.

(** [Radio]'s render: read the context, throw when it is falsy, destructure
    it and build the input's attributes. *)
Definition Radio (ps : providers) (value : jsval) (disabled : bool)
  : Exc radio_markup :=
  let context := useContext RadioContext ps in
  if negb (truthy context) then Throw "Radio must be used within a RadioGroup"
  else
    let name := js_get context "name" in
    let selectedValue := js_get context "selectedValue" in
    let groupDisabled := js_get context "disabled" in
    let required := js_get context "required" in
    let isSelected := strict_eq selectedValue value in
    let isDisabled := disabled || truthy groupDisabled in
    let id := js_to_string name ++ "-" ++ js_to_string value in
    Ok (mkRadioMarkup id name isSelected isDisabled required).

(** ** The context hooks (useToast.js, ThemeProvider.jsx) *)

(** The value [ToastProvider] passes to [ToastContext.Provider]: the object
    returned by [useToast()]. *)
Definition ToastProvider_value (toasts : list jsval) : jsval :=
  JObj [("toasts", JArr toasts); ("showToast", JFun "showToast");
        ("showSuccess", JFun "showSuccess"); ("showError", JFun "showError");
        ("showWarning", JFun "showWarning"); ("showInfo", JFun "showInfo");
        ("dismissToast", JFun "dismissToast"); ("dismissAll", JFun "dismissAll");
        ("updateToast", JFun "updateToast"); ("hasToast", JFun "hasToast")].

Definition ToastProvider_scope (ps : providers) (toasts : list jsval) : providers :=
  ("ToastContext", ToastProvider_value toasts) :: ps.

(** The value [ThemeProvider] passes to [ThemeContext.Provider]. *)
Definition ThemeProvider_value (theme resolvedTheme : string) (forcedTheme : jsval)
    (enableSystem : bool) : jsval :=
  JObj [("theme", JStr theme); ("setTheme", JFun "setTheme");
        ("toggleTheme", JFun "toggleTheme");
        ("resolvedTheme",
           if truthy forcedTheme then forcedTheme else JStr resolvedTheme);
        ("themes", if enableSystem
                   then JArr [JStr "light"; JStr "dark"; JStr "system"]
                   else JArr [JStr "light"; JStr "dark"])].

Definition ThemeProvider_scope (ps : providers) (theme resolvedTheme : string)
    (forcedTheme : jsval) (enableSystem : bool) : providers :=
  ("ThemeContext", ThemeProvider_value theme resolvedTheme forcedTheme enableSystem)
    :: ps.

Definition useToastContext (ps : providers) : Exc jsval :=
  let context := useContext ToastContext ps in
  if negb (truthy context)
  then Throw "useToastContext must be used within a ToastProvider"
  else Ok context.

Definition useTheme (ps : providers) : Exc jsval :=
  let context := useContext ThemeContext ps in
  if negb (truthy context)
  then Throw "useTheme must be used within a ThemeProvider"
  else Ok context.

(** ** Callback props

    A call log records every callback invocation with its arguments.
    [f?.(args)] does nothing when [f] is [undefined] or [null], calls a
    function, and throws on any other value; [f(args)] throws unless [f]
    is a function. *)

Definition call : Type := (string * list jsval)%type.

Definition opt_call (f : jsval) (args : list jsval) (log : list call)
  : Exc (list call) :=
  match f with
  | JUndefined | JNull => Ok log
  | JFun n => Ok (log ++ [(n, args)])%list
  | _ => Throw "TypeError: not a function"
  end.

Definition plain_call (f : jsval) (args : list jsval) (log : list call)
  : Exc (list call) :=
  match f with
  | JFun n => Ok (log ++ [(n, args)])%list
  | _ => Throw "TypeError: not a function"
  end.

(** A callback prop that is supplied but does nothing. *)
Definition noop : jsval := JFun "noop".

(** ** Strings: [toLowerCase] and [includes]

    Strings are ASCII: [toLowerCase] maps [A-Z] to [a-z] and leaves the
    other characters alone. Non-ASCII letters, which JavaScript also folds,
    are not modelled. *)

Definition ascii_lower (c : ascii) : ascii :=
  let n := nat_of_ascii c in
  if (65 <=? n)%nat && (n <=? 90)%nat then ascii_of_nat (n + 32) else c.

Fixpoint to_lower (s : string) : string :=
  match s with
  | EmptyString => EmptyString
  | String c s' => String (ascii_lower c) (to_lower s')
  end.

Definition includes (s sub : string) : bool :=
  match String.index 0 sub s with Some _ => true | None => false end.

(** ** Select (Select.jsx) *)

Record select_option := mkOption {
  opt_value : jsval;
  opt_label : string
}.

(** The props the handlers read. *)
Record select_props := mkSelectProps {
  sp_options : list select_option;
  sp_disabled : bool;
  sp_searchable : bool;
  sp_onChange : jsval;
  sp_onSearch : jsval
}.

(** The component's state hooks, and the log of callback invocations. *)
Record select_state := mkSelectState {
  isOpen : bool;
  searchTerm : string;
  highlightedIndex : Z;
  s_calls : list call
}.

Definition select_local (st : select_state) : bool * string * Z :=
  (isOpen st, searchTerm st, highlightedIndex st).

Definition select_init : select_state := mkSelectState false "" (-1) [].

Definition set_isOpen b st :=
  mkSelectState b (searchTerm st) (highlightedIndex st) (s_calls st).
Definition set_searchTerm t st :=
  mkSelectState (isOpen st) t (highlightedIndex st) (s_calls st).
Definition set_highlightedIndex i st :=
  mkSelectState (isOpen st) (searchTerm st) i (s_calls st).
Definition set_calls log st :=
  mkSelectState (isOpen st) (searchTerm st) (highlightedIndex st) log.

Section Select.
Variable p : select_props.

Definition filteredOptions (st : select_state) : list select_option :=
  if sp_searchable p && negb (String.eqb (searchTerm st) "")
  then filter (fun o => includes (to_lower (opt_label o)) (to_lower (searchTerm st)))
              (sp_options p)
  else sp_options p.

(** [document]'s mousedown listener, registered on mount. [containerRef]
    is the container element once mounted; [contains] is the DOM's
    [Node.contains]. *)
Definition handleClickOutside {node : Type} (contains : node -> node -> bool)
    (containerRef : option node) (target : node) (st : select_state) : select_state :=
  match containerRef with
  | Some c => if negb (contains c target)
              then set_searchTerm "" (set_isOpen false st) else st
  | None => st
  end.

Definition handleToggle (st : select_state) : select_state :=
  if negb (sp_disabled p)
  then set_highlightedIndex (-1) (set_searchTerm "" (set_isOpen (negb (isOpen st)) st))
  else st.

Definition handleSelect (optionValue : jsval) (st : select_state) : Exc select_state :=
  log <- opt_call (sp_onChange p) [optionValue] (s_calls st) ;;
  Ok (set_searchTerm "" (set_isOpen false (set_calls log st))).

Definition handleClear (st : select_state) : Exc select_state :=
  log <- opt_call (sp_onChange p) [JStr ""] (s_calls st) ;;
  Ok (set_searchTerm "" (set_calls log st)).

Definition handleSearchChange (term : string) (st : select_state) : Exc select_state :=
  let st1 := set_searchTerm term st in
  log <- opt_call (sp_onSearch p) [JStr term] (s_calls st1) ;;
  Ok (set_highlightedIndex (-1) (set_calls log st1)).

Definition handleKeyDown (key : string) (st : select_state) : Exc select_state :=
  if negb (isOpen st) then
    if String.eqb key "Enter" || String.eqb key " " || String.eqb key "ArrowDown"
    then Ok (set_isOpen true st) else Ok st
  else
    let fo := filteredOptions st in
    let hi := highlightedIndex st in
    if String.eqb key "ArrowDown" then
      Ok (set_highlightedIndex
            (if hi <? Z.of_nat (List.length fo) - 1 then hi + 1 else hi) st)
    else if String.eqb key "ArrowUp" then
      Ok (set_highlightedIndex (if hi >? 0 then hi - 1 else -1) st)
    else if String.eqb key "Enter" then
      (if hi >=? 0 then
         match nth_error fo (Z.to_nat hi) with
         | Some o => handleSelect (opt_value o) st
         | None => Ok st
         end
       else Ok st)
    else if String.eqb key "Escape" then Ok (set_searchTerm "" (set_isOpen false st))
    else if String.eqb key "Tab" then Ok (set_searchTerm "" (set_isOpen false st))
    else Ok st.

End Select.

(** ** Menu (Menu.jsx) *)

Record menu_state := mkMenuState {
  menu_open : bool;
  m_calls : list call
}.

(** The [onClose] that [Menu] hands to [Menu.Content] and on to each
    [Menu.Item]: [() => setIsOpen(false)]. *)
Definition Menu_close : jsval := JFun "Menu.close".

Definition is_Menu_close (f : jsval) : bool :=
  match f with JFun n => String.eqb n "Menu.close" | _ => false end.

(** The click [Menu] attaches to [Menu.Trigger]: [setIsOpen(!isOpen)]. *)
Definition Menu_trigger_click (st : menu_state) : menu_state :=
  mkMenuState (negb (menu_open st)) (m_calls st).

(** [document] keydown: the [handleEscape] listener is registered by the
    effect only while the menu is open. *)
Definition Menu_document_keydown (key : string) (st : menu_state) : menu_state :=
  if menu_open st then
    if String.eqb key "Escape" then mkMenuState false (m_calls st) else st
  else st.

(** [Menu.Item]'s [handleClick], inside a [Menu] whose state is [st]. *)
Definition MenuItem_handleClick (disabled : bool) (onClick onClose : jsval)
    (st : menu_state) : Exc menu_state :=
  if negb disabled && truthy onClick then
    log1 <- plain_call onClick [] (m_calls st) ;;
    log2 <- opt_call onClose [] log1 ;;
    Ok (mkMenuState (if is_Menu_close onClose then false else menu_open st) log2)
  else Ok st.

(** ** Slider (Slider.jsx)

    Values, bounds and step are integers, and the track's geometry
    ([rect.left], [rect.width]) is in whole pixels, with a positive width
    and step; then [Math.round(x / step)] of the rational position is
    computed exactly by [js_round_div]. A zero step or width makes
    JavaScript compute [NaN], which this model does not represent (its
    division by zero gives 0): the theorems about the computed value assume
    a positive width and step. *)

Record slider_props := mkSliderProps {
  sl_min : Z;
  sl_max : Z;
  sl_step : Z;
  sl_disabled : bool;
  sl_onChange : jsval;
  sl_track : option (Z * Z)          (* trackRef.current: (rect.left, rect.width) *)
}.

Record slider_state := mkSliderState {
  internalValue : Z;
  isDragging : bool;
  sl_calls : list call
}.

Definition slider_local (st : slider_state) : Z * bool :=
  (internalValue st, isDragging st).

(** [Math.round(num / den)] for [den > 0]: [floor(num / den + 1/2)]. *)
Definition js_round_div (num den : Z) : Z := (2 * num + den) / (2 * den).

Section Slider.
Variable p : slider_props.

Definition getValueFromPosition (clientX : Z) (st : slider_state) : Z :=
  match sl_track p with
  | None => internalValue st
  | Some (rect_left, rect_width) =>
      (* newValue = min + ((clientX - rect.left) / rect.width) * (max - min) *)
      let num := sl_min p * rect_width + (clientX - rect_left) * (sl_max p - sl_min p) in
      let newValue := js_round_div num (rect_width * sl_step p) * sl_step p in
      Z.max (sl_min p) (Z.min (sl_max p) newValue)
  end.

Definition slider_handleMouseDown (clientX : Z) (st : slider_state) : Exc slider_state :=
  if sl_disabled p then Ok st
  else
    let newValue := getValueFromPosition clientX st in
    log <- opt_call (sl_onChange p) [JNum newValue] (sl_calls st) ;;
    Ok (mkSliderState newValue true log).

(** [document]'s mousemove listener, registered while dragging. *)
Definition slider_handleMouseMove (clientX : Z) (st : slider_state) : Exc slider_state :=
  if negb (isDragging st) || sl_disabled p then Ok st
  else
    let newValue := getValueFromPosition clientX st in
    log <- opt_call (sl_onChange p) [JNum newValue] (sl_calls st) ;;
    Ok (mkSliderState newValue (isDragging st) log).

Definition slider_handleKeyDown (key : string) (st : slider_state) : Exc slider_state :=
  if sl_disabled p then Ok st
  else
    let v := internalValue st in
    let next :=
      if String.eqb key "ArrowLeft" || String.eqb key "ArrowDown"
      then Some (Z.max (sl_min p) (v - sl_step p))
      else if String.eqb key "ArrowRight" || String.eqb key "ArrowUp"
      then Some (Z.min (sl_max p) (v + sl_step p))
      else if String.eqb key "Home" then Some (sl_min p)
      else if String.eqb key "End" then Some (sl_max p)
      else None in
    match next with
    | None => Ok st
    | Some newValue =>
        log <- opt_call (sl_onChange p) [JNum newValue] (sl_calls st) ;;
        Ok (mkSliderState newValue (isDragging st) log)
    end.

End Slider.

(** ** Toast (Toast.jsx)

    Time is in whole milliseconds. The progress bar's value is not
    modelled. [t_interval] is the [setInterval] the effect started, as
    [(startTime, endTime)]; it fires every 50 ms after [startTime].
    [t_timeouts] are the firing times of the 300 ms exit timeouts that
    [handleDismiss] scheduled. *)

Record toast_props := mkToastProps {
  tp_id : string;
  tp_duration : Z;
  tp_dismissible : bool;
  tp_onDismiss : jsval;
  tp_onPause : jsval;
  tp_onResume : jsval
}.

Record toast_state := mkToastState {
  t_now : Z;
  t_paused : bool;
  t_exiting : bool;
  t_interval : option (Z * Z);
  t_timeouts : list Z;
  t_calls : list call
}.

Definition toast_local (st : toast_state) : Z * bool * bool * option (Z * Z) * list Z :=
  (t_now st, t_paused st, t_exiting st, t_interval st, t_timeouts st).

Inductive toast_event : Type :=
| Tick                 (* one millisecond passes *)
| MouseEnter
| MouseLeave
| CloseClick.

Section Toast.
Variable p : toast_props.

(** The effect on [[duration, isPaused, handleDismiss]]: its cleanup clears
    the previous interval, then it starts a new one unless
    [duration <= 0 || isPaused]. *)
Definition toast_effect (st : toast_state) : toast_state :=
  mkToastState (t_now st) (t_paused st) (t_exiting st)
    (if (tp_duration p <=? 0) || t_paused st then None
     else Some (t_now st, t_now st + tp_duration p))
    (t_timeouts st) (t_calls st).

(** The state right after mount at time [now]. *)
Definition toast_mount (now : Z) : toast_state :=
  toast_effect (mkToastState now false false None [] []).

Definition handleDismiss (st : toast_state) : toast_state :=
  mkToastState (t_now st) (t_paused st) true (t_interval st)
    (t_timeouts st ++ [t_now st + 300])%list (t_calls st).

(** The interval callback at time [now]: once [now >= endTime] it clears
    itself and calls [handleDismiss]. *)
Definition toast_interval_fire (st : toast_state) : toast_state :=
  match t_interval st with
  | Some (start, endTime) =>
      let n := t_now st in
      if (0 <? n - start) && ((n - start) mod 50 =? 0) then
        if endTime <=? n
        then handleDismiss (mkToastState n (t_paused st) (t_exiting st) None
                              (t_timeouts st) (t_calls st))
        else st
      else st
  | None => st
  end.

(** The exit timeouts due now: each calls [onDismiss?.(id)]. *)
Fixpoint toast_fire_timeouts (now : Z) (ts : list Z) (log : list call)
  : Exc (list Z * list call) :=
  match ts with
  | [] => Ok ([], log)
  | t :: ts' =>
      if t =? now then
        log' <- opt_call (tp_onDismiss p) [JStr (tp_id p)] log ;;
        toast_fire_timeouts now ts' log'
      else
        r <- toast_fire_timeouts now ts' log ;;
        Ok (t :: fst r, snd r)
  end.

Definition toast_tick (st : toast_state) : Exc toast_state :=
  let st1 := toast_interval_fire
               (mkToastState (t_now st + 1) (t_paused st) (t_exiting st)
                  (t_interval st) (t_timeouts st) (t_calls st)) in
  r <- toast_fire_timeouts (t_now st1) (t_timeouts st1) (t_calls st1) ;;
  Ok (mkToastState (t_now st1) (t_paused st1) (t_exiting st1) (t_interval st1)
        (fst r) (snd r)).

Definition set_paused (b : bool) (st : toast_state) : toast_state :=
  (* a state update that changes [isPaused] re-runs the effect *)
  if Bool.eqb b (t_paused st) then st
  else toast_effect (mkToastState (t_now st) b (t_exiting st) (t_interval st)
                       (t_timeouts st) (t_calls st)).

Definition handleMouseEnter (st : toast_state) : Exc toast_state :=
  let st1 := set_paused true st in
  log <- opt_call (tp_onPause p) [JStr (tp_id p)] (t_calls st1) ;;
  Ok (mkToastState (t_now st1) (t_paused st1) (t_exiting st1) (t_interval st1)
        (t_timeouts st1) log).

Definition handleMouseLeave (st : toast_state) : Exc toast_state :=
  let st1 := set_paused false st in
  log <- opt_call (tp_onResume p) [JStr (tp_id p)] (t_calls st1) ;;
  Ok (mkToastState (t_now st1) (t_paused st1) (t_exiting st1) (t_interval st1)
        (t_timeouts st1) log).

Definition toast_step (ev : toast_event) (st : toast_state) : Exc toast_state :=
  match ev with
  | Tick => toast_tick st
  | MouseEnter => handleMouseEnter st
  | MouseLeave => handleMouseLeave st
  | CloseClick => if tp_dismissible p then Ok (handleDismiss st) else Ok st
  end.

Fixpoint toast_run (evs : list toast_event) (st : toast_state) : Exc toast_state :=
  match evs with
  | [] => Ok st
  | ev :: evs' => st' <- toast_step ev st ;; toast_run evs' st'
  end.

End Toast.

(** ** Accordion (Accordion.jsx)

    A JavaScript [Set] of item ids, in insertion order, without duplicates. *)

Definition set_has (s : list string) (x : string) : bool :=
  existsb (String.eqb x) s.

Definition set_delete (s : list string) (x : string) : list string :=
  filter (fun y => negb (String.eqb x y)) s.

Definition set_add (s : list string) (x : string) : list string :=
  if set_has s x then s else (s ++ [x])%list.

Definition set_clear (s : list string) : list string := [].

(** [toggleItem(itemId)]: the new open set, then [onChange?.(Array.from(..))]. *)
Definition toggleItem (type : string) (onChange : jsval) (openItems : list string)
    (log : list call) (itemId : string) : Exc (list string * list call) :=
  let newOpenItems :=
    if String.eqb type "single" then
      if set_has openItems itemId then set_delete openItems itemId
      else set_add (set_clear openItems) itemId
    else
      if set_has openItems itemId then set_delete openItems itemId
      else set_add openItems itemId in
  log' <- opt_call onChange [JArr (map JStr newOpenItems)] log ;;
  Ok (newOpenItems, log').

(** ** Pagination (Pagination.jsx) *)

Inductive page_item : Type :=
| Page (n : Z)
| Ellipsis.                (* the string '...' *)

(** [for (let i = 1; i <= totalPages; i++) pages.push(i);] *)
Definition pages_upto (totalPages : Z) : list page_item :=
  map (fun i => Page (Z.of_nat i)) (seq 1 (Z.to_nat totalPages)).

Definition getPageNumbers (currentPage totalPages : Z) : list page_item :=
  let maxVisible := 5 in
  if totalPages <=? maxVisible then pages_upto totalPages
  else
    [Page 1] ++
    (if currentPage <=? 3 then
       [Page 2; Page 3; Page 4; Ellipsis; Page totalPages]
     else if currentPage >=? totalPages - 2 then
       [Ellipsis; Page (totalPages - 3); Page (totalPages - 2);
        Page (totalPages - 1); Page totalPages]
     else
       [Ellipsis; Page (currentPage - 1); Page currentPage; Page (currentPage + 1);
        Ellipsis; Page totalPages]).

(** The numeric entries of a page list, in order. *)
Definition page_numbers (l : list page_item) : list Z :=
  flat_map (fun x => match x with Page n => [n] | Ellipsis => [] end) l.

(** ** The toast queue (useToast.js)

    A toast record is a JavaScript object; [generateId()] and [Date.now()]
    are the inputs [id] and [now]. *)

Definition toast_record : Type := list (string * jsval).

Definition defaultConfig : toast_record :=
  [("duration", JNum 5000); ("dismissible", JBool true)].

(** [showToast(toast)] on the list [prev]: the new list and the returned id. *)
Definition showToast (id : string) (now : Z) (toast : toast_record)
    (prev : list toast_record) : list toast_record * string :=
  let newToast :=
    spread (spread defaultConfig toast) [("id", JStr id); ("createdAt", JNum now)] in
  (newToast :: prev, id).

(** [dismissToast(id)]: [prev.filter((toast) => toast.id !== id)]. *)
Definition dismissToast (id : string) (prev : list toast_record) : list toast_record :=
  filter (fun t => negb (strict_eq (assoc_get t "id") (JStr id))) prev.

(** ** Comparing a handler with and without a callback *)

(** A value [f?.(...)] accepts without throwing: absent, or a function. *)
Definition is_callback (f : jsval) : bool :=
  match f with
  | JUndefined | JNull | JFun _ => true
  | _ => false
  end.

(** Two runs of a handler both return, in states with the same local part. *)
Definition agree {S L : Type} (loc : S -> L) (r1 r2 : Exc S) : Prop :=
  exists s1 s2, r1 = Ok s1 /\ r2 = Ok s2 /\ loc s1 = loc s2.

(** [count] ticks of one millisecond. *)
Definition ticks (count : nat) : list toast_event := repeat Tick count.

(** The time of the first 50 ms interval tick at or after [duration]. *)
Definition first_tick_after (duration : Z) : Z := 50 * ((duration + 49) / 50).

(** ** Radio: change and keyboard handlers, RadioGroup's change (Radio.jsx) *)

(** [Radio]'s [handleChange], reading [onChange] and [disabled] from the
    context as the render does: [if (!isDisabled) onChange(value)]. *)
Definition Radio_handleChange (ps : providers) (value : jsval) (disabled : bool)
    (log : list call) : Exc (list call) :=
  let context := useContext RadioContext ps in
  let isDisabled := disabled || truthy (js_get context "disabled") in
  if isDisabled then Ok log else plain_call (js_get context "onChange") [value] log.

(** The index arithmetic of [Radio]'s [handleKeyDown] for the arrow keys:
    the radio to focus and click, from the current radio's [index] among the
    group's [len] radios; [None] for a key the arrows branch ignores. *)
Definition Radio_arrow_target (key : string) (index len : Z) : option Z :=
  if String.eqb key "ArrowDown" || String.eqb key "ArrowRight" then
    let nextIndex := index + 1 in
    Some (if nextIndex >=? len then 0 else nextIndex)
  else if String.eqb key "ArrowUp" || String.eqb key "ArrowLeft" then
    let nextIndex := index - 1 in
    Some (if nextIndex <? 0 then len - 1 else nextIndex)
  else None.

(** [RadioGroup]'s uncontrolled state and its [handleChange]. *)
Definition RadioGroup_selectedValue (controlledValue uncontrolledValue : jsval) : jsval :=
  match controlledValue with JUndefined => uncontrolledValue | _ => controlledValue end.

Definition RadioGroup_handleChange (controlledValue : jsval) (onChange : jsval)
    (newValue : jsval) (uncontrolledValue : jsval) (log : list call)
  : Exc (jsval * list call) :=
  let isControlled := match controlledValue with JUndefined => false | _ => true end in
  let unc := if isControlled then uncontrolledValue else newValue in
  log' <- opt_call onChange [newValue] log ;;
  Ok (unc, log').

(** ** CheckboxGroup (Checkbox.jsx) *)

(** [Array.prototype.includes] on primitive values. *)
Definition js_includes (l : list jsval) (v : jsval) : bool := existsb (strict_eq v) l.

(** [CheckboxGroup]'s [handleChange(value, isChecked)]: the new values. *)
Definition CheckboxGroup_newValues (selectedValues : list jsval) (value : jsval)
    (isChecked : bool) : list jsval :=
  if isChecked then (selectedValues ++ [value])%list
  else filter (fun v => negb (strict_eq v value)) selectedValues.

(** [Checkbox]'s [isChecked] inside a group. *)
Definition Checkbox_isChecked_in_group (selectedValues : list jsval) (value : jsval) : bool :=
  js_includes selectedValues value.

(** ** Pagination buttons and item range (Pagination.jsx) *)

(** [handlePageClick(page)]: [onPageChange] is a required prop. *)
Definition handlePageClick (currentPage : Z) (onPageChange : jsval) (page : page_item)
    (log : list call) : Exc (list call) :=
  match page with
  | Ellipsis => Ok log
  | Page n => if n =? currentPage then Ok log else plain_call onPageChange [JNum n] log
  end.

(** A click on the Previous button; a disabled button receives no click. *)
Definition Pagination_prev (currentPage : Z) (onPageChange : jsval) (log : list call)
  : Exc (list call) :=
  if currentPage <=? 1 then Ok log
  else handlePageClick currentPage onPageChange (Page (currentPage - 1)) log.

Definition Pagination_next (currentPage totalPages : Z) (onPageChange : jsval)
    (log : list call) : Exc (list call) :=
  if currentPage >=? totalPages then Ok log
  else handlePageClick currentPage onPageChange (Page (currentPage + 1)) log.

(** [startItem] and [endItem] when [totalItems] is truthy. *)
Definition Pagination_range (currentPage itemsPerPage totalItems : Z) : Z * Z :=
  ((currentPage - 1) * itemsPerPage + 1, Z.min (currentPage * itemsPerPage) totalItems).

(** ** Slider.Range (Slider.jsx)

    [value] is the two-element array [[start, end]], or absent. *)
Definition SliderRange_bounds (value : option (Z * Z)) (min max : Z) : Z * Z :=
  match value with Some se => se | None => (min, max) end.

Definition SliderRange_handleStartChange (value : option (Z * Z)) (min max : Z)
    (onChange : jsval) (newStart : Z) (log : list call) : Exc (list call) :=
  let '(start, end_) := SliderRange_bounds value min max in
  if newStart <=? end_ then opt_call onChange [JArr [JNum newStart; JNum end_]] log
  else Ok log.

Definition SliderRange_handleEndChange (value : option (Z * Z)) (min max : Z)
    (onChange : jsval) (newEnd : Z) (log : list call) : Exc (list call) :=
  let '(start, end_) := SliderRange_bounds value min max in
  if newEnd >=? start then opt_call onChange [JArr [JNum start; JNum newEnd]] log
  else Ok log.

(** ** The rest of the toast queue (useToast.js) and ToastContainer *)

Definition showSuccess (id : string) (now : Z) (message title : jsval)
    (options : toast_record) (prev : list toast_record) :=
  showToast id now
    (spread [("variant", JStr "success"); ("title", title); ("message", message)] options)
    prev.

Definition showError (id : string) (now : Z) (message title : jsval)
    (options : toast_record) (prev : list toast_record) :=
  showToast id now
    (spread [("variant", JStr "error");
             ("title", if truthy title then title else JStr "Error");
             ("message", message); ("duration", JNum 8000)] options)
    prev.

Definition showWarning (id : string) (now : Z) (message title : jsval)
    (options : toast_record) (prev : list toast_record) :=
  showToast id now
    (spread [("variant", JStr "warning"); ("title", title); ("message", message);
             ("duration", JNum 7000)] options)
    prev.

Definition showInfo (id : string) (now : Z) (message title : jsval)
    (options : toast_record) (prev : list toast_record) :=
  showToast id now
    (spread [("variant", JStr "info"); ("title", title); ("message", message)] options)
    prev.

Definition dismissAll (prev : list toast_record) : list toast_record := [].

(** [updateToast(id, updates)]. *)
Definition updateToast (id : string) (updates : toast_record) (prev : list toast_record)
  : list toast_record :=
  map (fun t => if strict_eq (assoc_get t "id") (JStr id) then spread t updates else t) prev.

(** [arr.slice(0, end)]: a negative [end] counts from the end. *)
Definition js_slice0 {A : Type} (l : list A) (end_ : Z) : list A :=
  if end_ >=? 0 then firstn (Z.to_nat end_) l
  else firstn (List.length l - Z.to_nat (- end_)) l.

(** [ToastContainer]'s [visibleToasts]. *)
Definition visibleToasts (maxToasts : Z) (toasts : list toast_record) : list toast_record :=
  js_slice0 toasts maxToasts.

(** ** ThemeProvider: the theme state, [setTheme] and [toggleTheme] *)

Record theme_env := mkThemeEnv {
  has_window : bool;                 (* typeof window !== 'undefined' *)
  system_dark : bool                 (* matchMedia('(prefers-color-scheme: dark)') *)
}.

Record theme_state := mkThemeState {
  theme : string;
  stored_theme : option string       (* localStorage[storageKey] *)
}.

Definition resolveTheme (env : theme_env) (t : string) : string :=
  if String.eqb t "system"
  then if has_window env && system_dark env then "dark" else "light"
  else t.

Definition setTheme (env : theme_env) (newTheme : string) (st : theme_state) : theme_state :=
  mkThemeState newTheme (if has_window env then Some newTheme else stored_theme st).

Definition toggleTheme (env : theme_env) (st : theme_state) : theme_state :=
  setTheme env (if String.eqb (resolveTheme env (theme st)) "dark" then "light" else "dark") st.

(** The state of a [Toast] mounted at time 0, never hovered, [k] ms later:
    counting down, then exiting (the exit timeout pending), then gone. *)
Definition toast_unhovered (id name : string) (duration : Z) (k : nat) : toast_state :=
  let D := first_tick_after duration in
  let t := Z.of_nat k in
  if t <? D then mkToastState t false false (Some (0, duration)) [] []
  else if t <? D + 300 then mkToastState t false true None [D + 300] []
  else mkToastState t false true None [] [(name, [JStr id])].

(** * Properties *)

(** ** Contexts *)

Lemma useContext_absent (c : context) (ps : providers) :
  ~ In (ctx_name c) (map fst ps) -> useContext c ps = ctx_default c.
Proof.
  induction ps as [| [n v] ps IH]; simpl; intros Hn; [reflexivity |].
  destruct (String.eqb_spec n (ctx_name c)) as [-> | _]; [tauto |].
  apply IH. tauto.
Qed.

Lemma useContext_app_absent (c : context) (ps1 ps2 : providers) :
  ~ In (ctx_name c) (map fst ps1) -> useContext c (ps1 ++ ps2)%list = useContext c ps2.
Proof.
  induction ps1 as [| [n v] ps1 IH]; simpl; intros Hn; [reflexivity |].
  destruct (String.eqb_spec n (ctx_name c)) as [-> | _]; [tauto |].
  apply IH. tauto.
Qed.

(** C1 (as the code stands): a [Radio] with no enclosing [RadioGroup]
    reads the default [{}] of [RadioContext], which is truthy, so the
    guard [if (!context)] never throws and the radio renders. *)
Theorem Radio_outside_group_renders (value : jsval) (disabled : bool) :
  exists m, Radio [] value disabled = Ok m.
Proof.
  unfold Radio. simpl. eexists. reflexivity.
Qed.

(** The concrete markup [<Radio value="a" />] renders outside a group. *)
Example Radio_outside_group_markup :
  Radio [] (JStr "a") false =
  Ok (mkRadioMarkup "undefined-a" JUndefined false false JUndefined).
Proof. reflexivity. Qed.

(** Inside a group the radio reads the group's value. *)
Example Radio_inside_group_markup :
  Radio (RadioGroup_scope [] "size" (JStr "md") false false) (JStr "md") false =
  Ok (mkRadioMarkup "size-md" (JStr "size") true false (JBool false)).
Proof. reflexivity. Qed.

(** C7: [useToastContext] and [useTheme] throw their messages when no
    provider of their context encloses the caller, and return the nearest
    provider's value when a [ToastProvider] / [ThemeProvider] encloses it
    (whatever other providers lie in between). *)
Theorem context_hooks_provider_required :
  (forall ps, ~ In "ToastContext" (map fst ps) ->
     useToastContext ps = Throw "useToastContext must be used within a ToastProvider")
  /\ (forall ps, ~ In "ThemeContext" (map fst ps) ->
     useTheme ps = Throw "useTheme must be used within a ThemeProvider")
  /\ (forall ps1 ps2 toasts, ~ In "ToastContext" (map fst ps1) ->
     useToastContext (ps1 ++ ToastProvider_scope ps2 toasts)%list = Ok (ToastProvider_value toasts))
  /\ (forall ps1 ps2 theme resolvedTheme forcedTheme enableSystem,
     ~ In "ThemeContext" (map fst ps1) ->
     useTheme (ps1 ++ ThemeProvider_scope ps2 theme resolvedTheme forcedTheme enableSystem)%list
     = Ok (ThemeProvider_value theme resolvedTheme forcedTheme enableSystem)).
Proof.
  repeat split; intros.
  - unfold useToastContext. rewrite (useContext_absent ToastContext); auto.
  - unfold useTheme. rewrite (useContext_absent ThemeContext); auto.
  - unfold useToastContext.
    rewrite (useContext_app_absent ToastContext); auto.
  - unfold useTheme.
    rewrite (useContext_app_absent ThemeContext); auto.
Qed.

Lemma context_hooks_provider_required_witness :
  useToastContext [("ThemeContext", JObj [])]
    = Throw "useToastContext must be used within a ToastProvider"
  /\ useTheme [] = Throw "useTheme must be used within a ThemeProvider"
  /\ useToastContext ([("RadioContext", JObj [])] ++ ToastProvider_scope [] [])%list
     = Ok (ToastProvider_value [])
  /\ useTheme ([] ++ ThemeProvider_scope [] "dark" "dark" JUndefined true)%list
     = Ok (ThemeProvider_value "dark" "dark" JUndefined true).
Proof.
  destruct context_hooks_provider_required as (H1 & H2 & H3 & H4).
  split; [apply H1; simpl; intuition discriminate |].
  split; [apply H2; simpl; tauto |].
  split; [apply H3; simpl; intuition discriminate |].
  apply H4; simpl; tauto.
Defined.

(** ** Trigger clicks, Escape and outside clicks *)

(** C4: a click on [Menu.Trigger] maps the open flag [b] to [!b]; a click on
    the trigger of an enabled [Select] maps [b] to [!b], clears the search
    term and resets the highlighted index; two clicks in a row restore the
    open flag. *)
Theorem trigger_click_toggles :
  (forall st, menu_open (Menu_trigger_click st) = negb (menu_open st))
  /\ (forall st, Menu_trigger_click (Menu_trigger_click st) = st)
  /\ (forall p st, sp_disabled p = false ->
        select_local (handleToggle p st) = (negb (isOpen st), "", -1))
  /\ (forall p st, sp_disabled p = false ->
        isOpen (handleToggle p (handleToggle p st)) = isOpen st).
Proof.
  split; [intros [b l]; reflexivity |].
  split; [intros [b l]; unfold Menu_trigger_click; simpl;
          rewrite Bool.negb_involutive; reflexivity |].
  split.
  - intros p st Hd. unfold handleToggle. rewrite Hd. reflexivity.
  - intros p st Hd. unfold handleToggle. rewrite Hd. simpl.
    apply Bool.negb_involutive.
Qed.

Lemma trigger_click_toggles_witness :
  let p := mkSelectProps [] false false JUndefined JUndefined in
  sp_disabled p = false /\
  select_local (handleToggle p select_init) = (true, "", -1) /\
  isOpen (handleToggle p (handleToggle p select_init)) = false.
Proof.
  destruct trigger_click_toggles as (_ & _ & H3 & H4).
  cbv zeta. split; [reflexivity |].
  split; [apply (H3 _ select_init); reflexivity |].
  apply (H4 _ select_init); reflexivity.
Defined.

(** C5: Escape closes an open [Menu]; on an open [Select] the Escape branch
    closes the dropdown and clears the search term; Escape never opens a
    closed menu or a closed select. *)
Theorem escape_closes :
  (forall st, menu_open st = true ->
     menu_open (Menu_document_keydown "Escape" st) = false)
  /\ (forall st, menu_open st = false ->
     menu_open (Menu_document_keydown "Escape" st) = false)
  /\ (forall p st, isOpen st = true ->
     handleKeyDown p "Escape" st = Ok (set_searchTerm "" (set_isOpen false st)))
  /\ (forall p st, isOpen st = false -> handleKeyDown p "Escape" st = Ok st).
Proof.
  repeat split; intros.
  - unfold Menu_document_keydown. rewrite H. reflexivity.
  - unfold Menu_document_keydown. rewrite H. exact H.
  - unfold handleKeyDown. rewrite H. reflexivity.
  - unfold handleKeyDown. rewrite H. reflexivity.
Qed.

Lemma escape_closes_witness :
  let p := mkSelectProps [mkOption (JStr "a") "A"] false true JUndefined JUndefined in
  let st := mkSelectState true "x" 0 [] in
  menu_open (Menu_document_keydown "Escape" (mkMenuState true [])) = false /\
  menu_open (Menu_document_keydown "Escape" (mkMenuState false [])) = false /\
  handleKeyDown p "Escape" st = Ok (mkSelectState false "" 0 []) /\
  handleKeyDown p "Escape" select_init = Ok select_init.
Proof.
  destruct escape_closes as (H1 & H2 & H3 & H4).
  split; [apply H1; reflexivity |].
  split; [apply H2; reflexivity |].
  split; [apply H3; reflexivity |].
  apply H4; reflexivity.
Defined.

(** C6: a mousedown outside the mounted container closes the [Select] and
    clears its search term; a mousedown inside leaves the state unchanged. *)
Theorem select_click_outside {node : Type} (contains : node -> node -> bool)
    (container target : node) (st : select_state) :
  isOpen st = true ->
  (contains container target = false ->
     isOpen (handleClickOutside contains (Some container) target st) = false
     /\ searchTerm (handleClickOutside contains (Some container) target st) = "")
  /\ (contains container target = true ->
     handleClickOutside contains (Some container) target st = st).
Proof.
  intros _. unfold handleClickOutside. split; intros H; rewrite H; auto.
Qed.

Lemma select_click_outside_witness :
  let contains := fun a b : nat => Nat.eqb a b in
  let st := mkSelectState true "ab" 1 [] in
  isOpen (handleClickOutside contains (Some 1%nat) 2%nat st) = false /\
  handleClickOutside contains (Some 1%nat) 1%nat st = st.
Proof.
  pose proof (select_click_outside (fun a b : nat => Nat.eqb a b) 1%nat 2%nat
                (mkSelectState true "ab" 1 []) eq_refl) as [H1 _].
  pose proof (select_click_outside (fun a b : nat => Nat.eqb a b) 1%nat 1%nat
                (mkSelectState true "ab" 1 []) eq_refl) as [_ H2].
  split; [apply H1; reflexivity | apply H2; reflexivity].
Defined.

(** ** Pagination windowing *)

Lemma page_numbers_pages_upto (totalPages : Z) :
  page_numbers (pages_upto totalPages) = map Z.of_nat (seq 1 (Z.to_nat totalPages)).
Proof.
  unfold pages_upto, page_numbers.
  induction (seq 1 (Z.to_nat totalPages)) as [| i l IH]; simpl; [reflexivity |].
  rewrite IH. reflexivity.
Qed.

Lemma sorted_seq_Z (a n : nat) : Sorted Z.lt (map Z.of_nat (seq a n)).
Proof.
  revert a. induction n as [| n IH]; intros a; simpl; constructor.
  - apply IH.
  - destruct n; simpl; constructor. lia.
Qed.

Lemma no_ellipsis_pages_upto (totalPages : Z) : ~ In Ellipsis (pages_upto totalPages).
Proof.
  unfold pages_upto. rewrite in_map_iff. intros (x & H & _). discriminate.
Qed.

Ltac sorted_explicit :=
  repeat first [apply Sorted_nil | apply Sorted_cons | apply HdRel_nil | apply HdRel_cons];
  lia.

(** C9: for [1 <= currentPage <= totalPages] the page numbers of
    [getPageNumbers] are strictly increasing, lie in [[1, totalPages]] and
    include [1], [currentPage] and [totalPages]; the list has at most 7
    entries, ellipses included; and for [totalPages <= 5] it is exactly
    [[1, ..., totalPages]], without ellipsis. *)
Theorem getPageNumbers_window (currentPage totalPages : Z) :
  1 <= totalPages -> 1 <= currentPage <= totalPages ->
  let l := getPageNumbers currentPage totalPages in
  Sorted Z.lt (page_numbers l)
  /\ Forall (fun n => 1 <= n <= totalPages) (page_numbers l)
  /\ In 1 (page_numbers l)
  /\ In currentPage (page_numbers l)
  /\ In totalPages (page_numbers l)
  /\ (List.length l <= 7)%nat
  /\ (totalPages <= 5 ->
      l = map (fun i => Page (Z.of_nat i)) (seq 1 (Z.to_nat totalPages))
      /\ ~ In Ellipsis l).
Proof.
  intros HT Hc l. subst l. unfold getPageNumbers.
  destruct (Z.leb_spec totalPages 5) as [H5 | H5].
  - rewrite page_numbers_pages_upto.
    assert (Hin : forall k, 1 <= k <= totalPages ->
              In k (map Z.of_nat (seq 1 (Z.to_nat totalPages)))).
    { intros k Hk. apply in_map_iff. exists (Z.to_nat k).
      split; [lia | apply in_seq; lia]. }
    split; [apply sorted_seq_Z |].
    split.
    { apply Forall_forall. intros x Hx. apply in_map_iff in Hx.
      destruct Hx as (i & <- & Hi). apply in_seq in Hi. lia. }
    split; [apply Hin; lia |].
    split; [apply Hin; lia |].
    split; [apply Hin; lia |].
    split; [unfold pages_upto; rewrite length_map, length_seq; lia |].
    intros _. split; [reflexivity | apply no_ellipsis_pages_upto].
  - assert (Hn : ~ totalPages <= 5) by lia.
    destruct (Z.leb_spec currentPage 3) as [H3 | H3];
      [| destruct (Z.geb_spec currentPage (totalPages - 2)) as [H2 | H2]];
      simpl;
      (split; [sorted_explicit |]);
      (split; [apply Forall_forall; simpl; intros x Hx; lia |]);
      repeat split; try lia; intros; lia.
Qed.

Lemma getPageNumbers_window_witness :
  getPageNumbers 5 10 =
    [Page 1; Ellipsis; Page 4; Page 5; Page 6; Ellipsis; Page 10]
  /\ In 5 (page_numbers (getPageNumbers 5 10))
  /\ (List.length (getPageNumbers 5 10) <= 7)%nat.
Proof.
  pose proof (getPageNumbers_window 5 10 ltac:(lia) ltac:(lia))
    as (_ & _ & _ & Hc & _ & Hl & _).
  split; [reflexivity |]. split; [exact Hc | exact Hl].
Defined.

(** ** The toast queue *)

Lemma assoc_get_set_same (fs : list (string * jsval)) (k : string) (v : jsval) :
  assoc_get (assoc_set fs k v) k = v.
Proof.
  induction fs as [| [k' v'] fs IH]; simpl.
  - rewrite String.eqb_refl. reflexivity.
  - destruct (String.eqb_spec k k') as [-> | Hne]; simpl.
    + rewrite String.eqb_refl. reflexivity.
    + apply String.eqb_neq in Hne. rewrite Hne. exact IH.
Qed.

Lemma assoc_get_set_other (fs : list (string * jsval)) (k k' : string) (v : jsval) :
  k <> k' -> assoc_get (assoc_set fs k' v) k = assoc_get fs k.
Proof.
  intros Hne. induction fs as [| [k'' v''] fs IH]; simpl.
  - apply String.eqb_neq in Hne. rewrite Hne. reflexivity.
  - destruct (String.eqb_spec k' k'') as [-> | Hne']; simpl.
    + apply String.eqb_neq in Hne. rewrite Hne. reflexivity.
    + rewrite IH. reflexivity.
Qed.

(** Reading a key of [{...a, ...b}], for an object [b] with distinct keys. *)
Lemma assoc_get_spread (a b : list (string * jsval)) (k : string) :
  NoDup (map fst b) ->
  assoc_get (spread a b) k = if existsb (String.eqb k) (map fst b)
                             then assoc_get b k else assoc_get a k.
Proof.
  unfold spread. revert a.
  induction b as [| [k' v] b IH]; intros a Hnd; simpl; [reflexivity |].
  inversion Hnd as [| ? ? Hk' Hnd']; subst.
  rewrite IH by exact Hnd'.
  destruct (String.eqb_spec k k') as [-> | Hne]; simpl.
  - destruct (existsb (String.eqb k') (map fst b)) eqn:E.
    + apply existsb_exists in E. destruct E as (x & Hx & Ex).
      apply String.eqb_eq in Ex. subst. contradiction.
    + apply assoc_get_set_same.
  - destruct (existsb (String.eqb k) (map fst b)); [reflexivity |].
    apply assoc_get_set_other. exact Hne.
Qed.

Lemma strict_eq_str (v : jsval) (s : string) :
  strict_eq v (JStr s) = true <-> v = JStr s.
Proof.
  destruct v; simpl; split; intros H; try discriminate.
  - apply String.eqb_eq in H. subst. reflexivity.
  - injection H as ->. apply String.eqb_refl.
Qed.

Lemma showToast_new_id (id : string) (now : Z) (toast : toast_record) prev :
  exists nt, fst (showToast id now toast prev) = nt :: prev
             /\ assoc_get nt "id" = JStr id.
Proof.
  eexists. split; [reflexivity |]. unfold spread at 1. simpl.
  rewrite assoc_get_set_other by discriminate.
  apply assoc_get_set_same.
Qed.

Lemma dismissToast_absent (id : string) (prev : list toast_record) :
  Forall (fun t => assoc_get t "id" <> JStr id) prev -> dismissToast id prev = prev.
Proof.
  induction 1 as [| t prev Ht _ IH]; [reflexivity |].
  unfold dismissToast in *. simpl.
  destruct (strict_eq (assoc_get t "id") (JStr id)) eqn:E.
  - apply strict_eq_str in E. contradiction.
  - simpl. rewrite IH. reflexivity.
Qed.

(** C10: [showToast] prepends one record, with [duration] 5000 and
    [dismissible] true unless the caller's fields set them, and returns its
    id; [dismissToast(id)] keeps exactly the records whose id is not [id];
    so dismissing the id [showToast] returned restores a list that did not
    hold that id, and dismissing an absent id changes nothing. *)
Theorem toast_queue_roundtrip :
  (forall id now toast prev,
     snd (showToast id now toast prev) = id
     /\ exists nt, fst (showToast id now toast prev) = nt :: prev
                   /\ assoc_get nt "id" = JStr id
                   /\ (NoDup (map fst toast) ->
                       assoc_get nt "duration"
                         = (if existsb (String.eqb "duration") (map fst toast)
                            then assoc_get toast "duration" else JNum 5000)
                       /\ assoc_get nt "dismissible"
                         = (if existsb (String.eqb "dismissible") (map fst toast)
                            then assoc_get toast "dismissible" else JBool true)))
  /\ (forall id prev t,
        In t (dismissToast id prev) <-> In t prev /\ assoc_get t "id" <> JStr id)
  /\ (forall id now toast prev,
        Forall (fun t => assoc_get t "id" <> JStr id) prev ->
        dismissToast id (fst (showToast id now toast prev)) = prev)
  /\ (forall id prev,
        Forall (fun t => assoc_get t "id" <> JStr id) prev ->
        dismissToast id prev = prev).
Proof.
  split; [| split; [| split]].
  - intros id now toast prev. split; [reflexivity |].
    eexists. split; [reflexivity |]. unfold spread at 1. simpl.
    split; [rewrite assoc_get_set_other by discriminate; apply assoc_get_set_same |].
    intros Hnd.
    rewrite !assoc_get_set_other by discriminate.
    rewrite !assoc_get_spread by exact Hnd.
    split; destruct existsb; reflexivity.
  - intros id prev t. unfold dismissToast. rewrite filter_In.
    rewrite Bool.negb_true_iff.
    split; intros [H1 H2]; split; auto.
    + intros E. apply strict_eq_str in E. congruence.
    + destruct (strict_eq (assoc_get t "id") (JStr id)) eqn:E; [| reflexivity].
      apply strict_eq_str in E. contradiction.
  - intros id now toast prev Hp.
    destruct (showToast_new_id id now toast prev) as (nt & -> & Hid).
    unfold dismissToast at 1. simpl. rewrite Hid. simpl.
    rewrite String.eqb_refl. simpl. apply dismissToast_absent. exact Hp.
  - apply dismissToast_absent.
Qed.

Lemma toast_queue_roundtrip_witness :
  let prev := [[("id", JStr "toast_1"); ("message", JStr "saved")]] in
  dismissToast "toast_2" (fst (showToast "toast_2" 7 [("message", JStr "hi")] prev))
    = prev
  /\ dismissToast "toast_9" prev = prev.
Proof.
  destruct toast_queue_roundtrip as (_ & _ & H3 & H4).
  cbv zeta. split.
  - apply H3. repeat constructor. discriminate.
  - apply H4. repeat constructor. discriminate.
Defined.

(** ** Accordion, single mode *)

Lemma set_has_delete (s : list string) (x : string) :
  set_has (set_delete s x) x = false.
Proof.
  unfold set_has, set_delete. induction s as [| y s IH]; simpl; [reflexivity |].
  destruct (String.eqb_spec x y) as [-> | Hne]; simpl; [exact IH |].
  apply String.eqb_neq in Hne. rewrite Hne. exact IH.
Qed.

(** C8 fails as stated: in single mode, an open set of three items (as
    [defaultOpen={['a','b','c']}] gives) keeps two open items after
    [toggleItem('a')]. *)
Lemma toggleItem_single_counterexample :
  toggleItem "single" JUndefined ["a"; "b"; "c"] [] "a" = Ok (["b"; "c"], [])
  /\ ~ (forall onChange openItems log itemId ns log',
          toggleItem "single" onChange openItems log itemId = Ok (ns, log') ->
          (List.length ns <= 1)%nat).
Proof.
  split; [reflexivity |].
  intros H. specialize (H JUndefined ["a"; "b"; "c"] [] "a" ["b"; "c"] [] eq_refl).
  simpl in H. lia.
Qed.

(** C8 (amended): in single mode, toggling an open item removes exactly
    it, toggling a closed item leaves it the unique open item, and an open
    set of at most one element stays so. *)
Theorem toggleItem_single (onChange : jsval) (openItems : list string)
    (log : list call) (itemId : string) (ns : list string) (log' : list call) :
  toggleItem "single" onChange openItems log itemId = Ok (ns, log') ->
  (set_has openItems itemId = true ->
     ns = set_delete openItems itemId /\ set_has ns itemId = false)
  /\ (set_has openItems itemId = false -> ns = [itemId])
  /\ ((List.length openItems <= 1)%nat -> (List.length ns <= 1)%nat).
Proof.
  unfold toggleItem. simpl.
  destruct (set_has openItems itemId) eqn:E;
    destruct (opt_call _ _ _) as [l | e]; simpl; intros H; inversion H; subst;
    clear H.
  - split; [intros _; split; [reflexivity | apply set_has_delete] |].
    split; [discriminate |].
    intros Hl. unfold set_delete.
    pose proof (filter_length_le (fun y => negb (String.eqb itemId y)) openItems).
    lia.
  - split; [discriminate |]. split; [reflexivity |]. simpl. lia.
Qed.

Lemma toggleItem_single_witness :
  toggleItem "single" (JFun "onChange") ["a"] [] "b"
    = Ok (["b"], [("onChange", [JArr [JStr "b"]])])
  /\ (List.length ["b"] <= 1)%nat.
Proof.
  split; [reflexivity |].
  apply (toggleItem_single (JFun "onChange") ["a"] [] "b" ["b"]
           [("onChange", [JArr [JStr "b"]])] eq_refl).
  simpl. lia.
Defined.

(** ** Optional callbacks *)

Ltac callback_cases f := destruct f; try discriminate.

Ltac agree_ok := eexists _, _; split; [reflexivity | split; reflexivity].

Lemma agree_refl {S L : Type} (loc : S -> L) (s : S) : agree loc (Ok s) (Ok s).
Proof. exists s, s. auto. Qed.

Lemma select_handlers_agree (options : list select_option) (disabled searchable : bool)
    (f1 g1 f2 g2 : jsval) :
  is_callback f1 = true -> is_callback g1 = true ->
  is_callback f2 = true -> is_callback g2 = true ->
  let p1 := mkSelectProps options disabled searchable f1 g1 in
  let p2 := mkSelectProps options disabled searchable f2 g2 in
  forall st,
  (forall v, agree select_local (handleSelect p1 v st) (handleSelect p2 v st))
  /\ agree select_local (handleClear p1 st) (handleClear p2 st)
  /\ (forall term, agree select_local (handleSearchChange p1 term st)
                                      (handleSearchChange p2 term st))
  /\ (forall key, agree select_local (handleKeyDown p1 key st) (handleKeyDown p2 key st)).
Proof.
  intros Hf1 Hg1 Hf2 Hg2 p1 p2 st.
  assert (Hsel : forall v st',
             agree select_local (handleSelect p1 v st') (handleSelect p2 v st')).
  { intros v st'. unfold handleSelect; subst p1 p2; simpl.
    callback_cases f1; callback_cases f2; simpl; eexists _, _; eauto. }
  split; [intros v; apply Hsel |].
  split.
  { unfold handleClear; subst p1 p2; simpl.
    callback_cases f1; callback_cases f2; simpl; eexists _, _; eauto. }
  split.
  { intros term. unfold handleSearchChange; subst p1 p2; simpl.
    callback_cases g1; callback_cases g2; simpl; eexists _, _; eauto. }
  intros key. unfold handleKeyDown.
  replace (filteredOptions p2 st) with (filteredOptions p1 st) by reflexivity.
  destruct (isOpen st); simpl.
  - repeat match goal with
           | |- context [if ?b then _ else _] => destruct b
           | |- context [match ?o with Some _ => _ | None => _ end] => destruct o
           end;
      first [apply Hsel | apply agree_refl].
  - destruct (_ || _); apply agree_refl.
Qed.

Lemma slider_handlers_agree (min max step : Z) (disabled : bool)
    (track : option (Z * Z)) (f1 f2 : jsval) :
  is_callback f1 = true -> is_callback f2 = true ->
  let p1 := mkSliderProps min max step disabled f1 track in
  let p2 := mkSliderProps min max step disabled f2 track in
  forall st,
  (forall x, agree slider_local (slider_handleMouseDown p1 x st)
                                (slider_handleMouseDown p2 x st))
  /\ (forall x, agree slider_local (slider_handleMouseMove p1 x st)
                                   (slider_handleMouseMove p2 x st))
  /\ (forall key, agree slider_local (slider_handleKeyDown p1 key st)
                                     (slider_handleKeyDown p2 key st)).
Proof.
  intros Hf1 Hf2 p1 p2 st.
  split; [| split]; intros a; subst p1 p2;
    unfold slider_handleMouseDown, slider_handleMouseMove, slider_handleKeyDown,
      getValueFromPosition; simpl;
    repeat match goal with
           | |- context [if ?b then _ else _] => destruct b
           end;
    try apply agree_refl;
    callback_cases f1; callback_cases f2; simpl; eexists _, _; eauto.
Qed.

Section ToastCallbacks.
Variables (id : string) (duration : Z) (dismissible : bool).
Variables (onDismiss1 onPause1 onResume1 onDismiss2 onPause2 onResume2 : jsval).
Hypotheses (Hd1 : is_callback onDismiss1 = true) (Hp1 : is_callback onPause1 = true)
           (Hr1 : is_callback onResume1 = true) (Hd2 : is_callback onDismiss2 = true)
           (Hp2 : is_callback onPause2 = true) (Hr2 : is_callback onResume2 = true).

Let p1 := mkToastProps id duration dismissible onDismiss1 onPause1 onResume1.
Let p2 := mkToastProps id duration dismissible onDismiss2 onPause2 onResume2.

Lemma toast_fire_timeouts_agree (now : Z) (ts : list Z) (log1 log2 : list call) :
  exists ts' l1 l2, toast_fire_timeouts p1 now ts log1 = Ok (ts', l1)
                    /\ toast_fire_timeouts p2 now ts log2 = Ok (ts', l2).
Proof.
  revert log1 log2. induction ts as [| t ts IH]; intros log1 log2; simpl.
  - eauto.
  - destruct (t =? now).
    + unfold p1, p2; simpl.
      callback_cases onDismiss1; callback_cases onDismiss2; simpl; apply IH.
    + destruct (IH log1 log2) as (ts' & l1 & l2 & E1 & E2).
      rewrite E1, E2. simpl. eauto.
Qed.

Lemma toast_local_eq (s1 s2 : toast_state) :
  toast_local s1 = toast_local s2 ->
  exists l, s2 = mkToastState (t_now s1) (t_paused s1) (t_exiting s1)
                   (t_interval s1) (t_timeouts s1) l.
Proof.
  destruct s1, s2; unfold toast_local; simpl. intros H. injection H.
  intros; subst. eauto.
Qed.

Lemma toast_interval_fire_calls (s : toast_state) (l : list call) :
  toast_interval_fire (mkToastState (t_now s) (t_paused s) (t_exiting s)
                         (t_interval s) (t_timeouts s) l)
  = mkToastState (t_now (toast_interval_fire s)) (t_paused (toast_interval_fire s))
      (t_exiting (toast_interval_fire s)) (t_interval (toast_interval_fire s))
      (t_timeouts (toast_interval_fire s)) l
  /\ t_calls (toast_interval_fire s) = t_calls s.
Proof.
  destruct s as [n ps ex [[st en] |] ts c]; unfold toast_interval_fire; simpl;
    [| split; reflexivity].
  destruct (_ && _); [destruct (en <=? n + 0) |]; destruct (en <=? n);
    split; reflexivity.
Qed.

Lemma toast_step_agree (ev : toast_event) (s1 s2 : toast_state) :
  toast_local s1 = toast_local s2 ->
  agree toast_local (toast_step p1 ev s1) (toast_step p2 ev s2).
Proof.
  intros H. destruct (toast_local_eq s1 s2 H) as [l ->]. clear H.
  destruct ev; simpl.
  - unfold toast_tick. simpl.
    set (s1' := mkToastState (t_now s1 + 1) (t_paused s1) (t_exiting s1)
                  (t_interval s1) (t_timeouts s1) (t_calls s1)).
    destruct (toast_interval_fire_calls s1' l) as [E _]. simpl in E. rewrite E.
    simpl.
    destruct (toast_fire_timeouts_agree (t_now (toast_interval_fire s1'))
                (t_timeouts (toast_interval_fire s1'))
                (t_calls (toast_interval_fire s1')) l) as (ts' & l1 & l2 & E1 & E2).
    rewrite E1, E2. simpl. eexists _, _. split; [reflexivity |]. split; reflexivity.
  - unfold handleMouseEnter, set_paused, toast_effect.
    destruct s1 as [n ps ex iv ts c]; simpl. destruct ps; simpl;
      unfold p1, p2; simpl;
      callback_cases onPause1; callback_cases onPause2; simpl; agree_ok.
  - unfold handleMouseLeave, set_paused, toast_effect.
    destruct s1 as [n ps ex iv ts c]; simpl. destruct ps; simpl;
      unfold p1, p2; simpl;
      callback_cases onResume1; callback_cases onResume2; simpl; agree_ok.
  - unfold p1, p2; simpl. destruct dismissible; agree_ok.
Qed.

Lemma toast_run_agree (evs : list toast_event) (s1 s2 : toast_state) :
  toast_local s1 = toast_local s2 ->
  agree toast_local (toast_run p1 evs s1) (toast_run p2 evs s2).
Proof.
  revert s1 s2. induction evs as [| ev evs IH]; intros s1 s2 H; simpl.
  - exists s1, s2. auto.
  - destruct (toast_step_agree ev s1 s2 H) as (r1 & r2 & E1 & E2 & Hr).
    rewrite E1, E2. simpl. apply IH. exact Hr.
Qed.

End ToastCallbacks.

(** C3 fails for [Menu.Item]'s [onClick]: with [onClick] absent a click on
    an item inside an open menu does nothing, while with a trivial
    [onClick] the item also calls [onClose] and the menu closes. *)
Lemma MenuItem_onClick_absent_counterexample :
  MenuItem_handleClick false JUndefined Menu_close (mkMenuState true [])
    = Ok (mkMenuState true [])
  /\ MenuItem_handleClick false noop Menu_close (mkMenuState true [])
    = Ok (mkMenuState false [("noop", []); ("Menu.close", [])])
  /\ ~ agree menu_open
         (MenuItem_handleClick false JUndefined Menu_close (mkMenuState true []))
         (MenuItem_handleClick false noop Menu_close (mkMenuState true [])).
Proof.
  split; [reflexivity |]. split; [reflexivity |].
  intros (s1 & s2 & E1 & E2 & H).
  simpl in E1, E2. injection E1 as <-. injection E2 as <-. discriminate H.
Qed.

(** C3 (amended): with the callback props absent, the handlers of [Select]
    ([onChange], [onSearch]), [Toast] ([onDismiss], [onPause], [onResume],
    over any run of events), [Slider] ([onChange]) and [Menu.Item]'s
    [onClose] never throw and make the same local state transition as with
    a trivial callback; a [Menu.Item] without [onClick] ignores the click
    entirely, [onClose] included, while an enabled item with a function
    [onClick] calls it, then calls [onClose], and the menu closes. *)
Theorem optional_callbacks_absent :
  (forall options disabled searchable st,
     let pU := mkSelectProps options disabled searchable JUndefined JUndefined in
     let pT := mkSelectProps options disabled searchable noop noop in
     (forall v, agree select_local (handleSelect pU v st) (handleSelect pT v st))
     /\ agree select_local (handleClear pU st) (handleClear pT st)
     /\ (forall term, agree select_local (handleSearchChange pU term st)
                                         (handleSearchChange pT term st))
     /\ (forall key, agree select_local (handleKeyDown pU key st)
                                        (handleKeyDown pT key st)))
  /\ (forall id duration dismissible evs st,
     agree toast_local
       (toast_run (mkToastProps id duration dismissible JUndefined JUndefined JUndefined)
          evs st)
       (toast_run (mkToastProps id duration dismissible noop noop noop) evs st))
  /\ (forall min max step disabled track st,
     let pU := mkSliderProps min max step disabled JUndefined track in
     let pT := mkSliderProps min max step disabled noop track in
     (forall x, agree slider_local (slider_handleMouseDown pU x st)
                                   (slider_handleMouseDown pT x st))
     /\ (forall x, agree slider_local (slider_handleMouseMove pU x st)
                                      (slider_handleMouseMove pT x st))
     /\ (forall key, agree slider_local (slider_handleKeyDown pU key st)
                                        (slider_handleKeyDown pT key st)))
  /\ (forall disabled name st,
     agree menu_open (MenuItem_handleClick disabled (JFun name) JUndefined st)
                     (MenuItem_handleClick disabled (JFun name) noop st))
  /\ (forall disabled onClose st,
     MenuItem_handleClick disabled JUndefined onClose st = Ok st)
  /\ (forall name st,
     MenuItem_handleClick false (JFun name) Menu_close st
     = Ok (mkMenuState false (m_calls st ++ [(name, []); ("Menu.close", [])])%list)).
Proof.
  split; [| split; [| split; [| split; [| split]]]].
  - intros options disabled searchable st.
    exact (select_handlers_agree options disabled searchable
             JUndefined JUndefined noop noop eq_refl eq_refl eq_refl eq_refl st).
  - intros id duration dismissible evs st.
    apply (toast_run_agree id duration dismissible
             JUndefined JUndefined JUndefined noop noop noop eq_refl eq_refl eq_refl eq_refl eq_refl eq_refl evs st st eq_refl).
  - intros min max step disabled track st.
    exact (slider_handlers_agree min max step disabled track JUndefined noop eq_refl eq_refl st).
  - intros disabled name st. unfold MenuItem_handleClick. simpl.
    destruct disabled; simpl; [exists st, st; auto |].
    eexists _, _. split; [reflexivity |]. split; reflexivity.
  - intros disabled onClose st. unfold MenuItem_handleClick.
    rewrite Bool.andb_false_r. reflexivity.
  - intros name st. unfold MenuItem_handleClick. simpl.
    rewrite <- app_assoc. reflexivity.
Qed.

(** ** Toast timing *)

Lemma first_tick_after_bounds (d : Z) :
  d <= first_tick_after d < d + 50 /\ first_tick_after d mod 50 = 0.
Proof.
  unfold first_tick_after. split.
  - Z.div_mod_to_equations. lia.
  - rewrite Z.mul_comm. apply Z.mod_mul. discriminate.
Qed.

Lemma first_tick_after_least (d t : Z) :
  t mod 50 = 0 -> d <= t -> first_tick_after d <= t.
Proof.
  unfold first_tick_after. intros Ht Hd. Z.div_mod_to_equations. lia.
Qed.

Lemma toast_run_app (p : toast_props) (e1 e2 : list toast_event) (s : toast_state) :
  toast_run p (e1 ++ e2) s = (s' <- toast_run p e1 s ;; toast_run p e2 s').
Proof.
  revert s. induction e1 as [| e e1 IH]; intros s; simpl; [reflexivity |].
  destruct (toast_step p e s); simpl; [apply IH | reflexivity].
Qed.

Lemma ticks_S (k : nat) : ticks (S k) = (ticks k ++ [Tick])%list.
Proof.
  unfold ticks. induction k as [| k IH]; simpl; [reflexivity |].
  rewrite <- IH. reflexivity.
Qed.

Lemma toast_unhovered_run (id name : string) (duration : Z) (dismissible : bool)
    (onPause onResume : jsval) (k : nat) :
  0 < duration ->
  let p := mkToastProps id duration dismissible (JFun name) onPause onResume in
  toast_run p (ticks k) (toast_mount p 0) = Ok (toast_unhovered id name duration k).
Proof.
  intros Hd p.
  destruct (first_tick_after_bounds duration) as [[HD1 HD2] HD3].
  induction k as [| k IH].
  - simpl. unfold toast_mount, toast_effect, toast_unhovered. simpl.
    destruct (Z.leb_spec duration 0); [lia |].
    destruct (Z.ltb_spec 0 (first_tick_after duration)); [reflexivity | lia].
  - rewrite ticks_S, toast_run_app, IH. simpl.
    unfold toast_tick, toast_unhovered. rewrite Nat2Z.inj_succ.
    set (D := first_tick_after duration) in *.
    set (t := Z.of_nat k).
    assert (Ht : 0 <= t) by lia.
    destruct (Z.ltb_spec t D) as [H1 | H1];
      [| destruct (Z.ltb_spec t (D + 300)) as [H2 | H2]];
      unfold toast_interval_fire, toast_fire_timeouts; simpl.
    + rewrite Z.sub_0_r.
      destruct (Z.ltb_spec 0 (t + 1)); [| lia]. simpl.
      destruct (Z.eqb_spec ((t + 1) mod 50) 0) as [Hm | Hm]; simpl.
      * destruct (Z.leb_spec duration (t + 1)) as [Hle | Hle]; simpl.
        -- assert (HDt : D <= t + 1) by (apply first_tick_after_least; assumption).
           assert (E : D = t + 1) by lia. rewrite <- E.
           destruct (Z.eqb_spec (D + 300) D); [lia |]. simpl.
           destruct (Z.ltb_spec (Z.succ t) D); [lia |].
           destruct (Z.ltb_spec (Z.succ t) (D + 300)); [| lia].
           unfold Z.succ. rewrite E. reflexivity.
        -- destruct (Z.ltb_spec (Z.succ t) D) as [Hs | Hs]; [reflexivity |].
           exfalso. assert (D = t + 1) by lia. lia.
      * destruct (Z.ltb_spec (Z.succ t) D) as [Hs | Hs]; [reflexivity |].
        exfalso. assert (E : D = t + 1) by lia. rewrite <- E in Hm. lia.
    + destruct (Z.eqb_spec (D + 300) (t + 1)) as [He | He]; simpl.
      * destruct (Z.ltb_spec (Z.succ t) D); [lia |].
        destruct (Z.ltb_spec (Z.succ t) (D + 300)); [lia |]. reflexivity.
      * destruct (Z.ltb_spec (Z.succ t) D); [lia |].
        destruct (Z.ltb_spec (Z.succ t) (D + 300)); [reflexivity | lia].
    + destruct (Z.ltb_spec (Z.succ t) D); [lia |].
      destruct (Z.ltb_spec (Z.succ t) (D + 300)); [lia |]. reflexivity.
Qed.

Lemma toast_fire_timeouts_incl (p : toast_props) (now : Z) (ts : list Z)
    (log : list call) (ts' : list Z) (log' : list call) :
  toast_fire_timeouts p now ts log = Ok (ts', log') -> incl ts' ts.
Proof.
  revert log ts' log'. induction ts as [| t ts IH]; intros log ts' log'; simpl.
  - intros H. injection H as <- _. apply incl_refl.
  - destruct (t =? now).
    + destruct (opt_call _ _ _) as [l |]; simpl; [| discriminate].
      intros H. apply incl_tl. exact (IH _ _ _ H).
    + destruct (toast_fire_timeouts p now ts log) as [[r1 r2] |] eqn:E; simpl;
        [| discriminate].
      intros H. injection H as <- _. apply incl_cons; [left; reflexivity |].
      apply incl_tl. exact (IH _ _ _ E).
Qed.

(** While paused, no interval is running. *)
Definition paused_inv (s : toast_state) : Prop :=
  t_paused s = true -> t_interval s = None.

Lemma toast_step_paused_inv (p : toast_props) (ev : toast_event) (s s' : toast_state) :
  paused_inv s -> toast_step p ev s = Ok s' -> paused_inv s'.
Proof.
  unfold paused_inv. intros Hs.
  destruct s as [n ps ex iv ts c]; simpl in Hs.
  destruct ev; simpl.
  - unfold toast_tick, toast_interval_fire. simpl.
    destruct iv as [[st en] |].
    + destruct (_ && _); [destruct (en <=? n + 1) |]; simpl;
        destruct (toast_fire_timeouts _ _ _ _) as [[r1 r2] |]; simpl;
        intros H; try discriminate; injection H as <-; simpl; auto.
    + destruct (toast_fire_timeouts _ _ _ _) as [[r1 r2] |]; simpl;
        intros H; try discriminate; injection H as <-; simpl; auto.
  - unfold handleMouseEnter, set_paused, toast_effect. simpl.
    destruct ps; simpl; destruct (opt_call _ _ _); simpl; intros H;
      try discriminate; injection H as <-; simpl; auto.
    rewrite Bool.orb_true_r. reflexivity.
  - unfold handleMouseLeave, set_paused, toast_effect. simpl.
    destruct ps; simpl; destruct (opt_call _ _ _); simpl; intros H;
      try discriminate; injection H as <-; simpl; auto; discriminate.
  - destruct (tp_dismissible p); intros H; injection H as <-; simpl; auto.
Qed.

Lemma toast_run_paused_inv (p : toast_props) (evs : list toast_event) (s s' : toast_state) :
  paused_inv s -> toast_run p evs s = Ok s' -> paused_inv s'.
Proof.
  revert s. induction evs as [| ev evs IH]; intros s Hs; simpl.
  - intros H. injection H as <-. exact Hs.
  - destruct (toast_step p ev s) as [s1 |] eqn:E; simpl; [| discriminate].
    apply IH. exact (toast_step_paused_inv p ev s s1 Hs E).
Qed.

(** A tick in a state without a running interval starts no dismissal. *)
Lemma toast_tick_no_interval (p : toast_props) (s s' : toast_state) :
  t_interval s = None -> toast_tick p s = Ok s' ->
  t_exiting s' = t_exiting s /\ incl (t_timeouts s') (t_timeouts s).
Proof.
  destruct s as [n ps ex iv ts c]; simpl. intros ->.
  unfold toast_tick, toast_interval_fire. simpl.
  destruct (toast_fire_timeouts p (n + 1) ts c) as [[r1 r2] |] eqn:E; simpl;
    [| discriminate].
  intros H. injection H as <-. simpl. split; [reflexivity |].
  exact (toast_fire_timeouts_incl p _ _ _ _ _ E).
Qed.

(** With no interval running and one exit timeout pending at [T], ticks
    before [T] only advance the clock. *)
Lemma toast_ticks_pending (p : toast_props) (n T : Z) (ps ex : bool) (log : list call)
    (m : nat) :
  n + Z.of_nat m < T ->
  toast_run p (ticks m) (mkToastState n ps ex None [T] log)
  = Ok (mkToastState (n + Z.of_nat m) ps ex None [T] log).
Proof.
  induction m as [| m IH]; intros H.
  - simpl. rewrite Z.add_0_r. reflexivity.
  - rewrite ticks_S, toast_run_app, IH by lia. simpl.
    unfold toast_tick, toast_interval_fire. simpl.
    destruct (Z.eqb_spec T (n + Z.of_nat m + 1)); [lia |]. simpl.
    do 2 f_equal. lia.
Qed.

(** The tick that reaches a pending exit timeout calls [onDismiss(id)]. *)
Lemma toast_tick_fires (p : toast_props) (n T : Z) (ps ex : bool) (log : list call) :
  T = n + 1 ->
  toast_tick p (mkToastState n ps ex None [T] log)
  = (l <- opt_call (tp_onDismiss p) [JStr (tp_id p)] log ;; Ok (mkToastState T ps ex None [] l)).
Proof.
  intros ->. unfold toast_tick, toast_interval_fire. simpl.
  rewrite Z.eqb_refl. destruct (opt_call _ _ _); reflexivity.
Qed.

(** C2 fails as stated: a toast whose 50 ms interval has already started
    the dismissal (duration 120 ms, dismissal started at 150 ms) is hovered
    at 150 ms, and the pending 300 ms exit timeout still calls
    [onDismiss(id)] while the pointer is on the toast. *)
Lemma toast_hover_during_exit_counterexample :
  let p := mkToastProps "t1" 120 true (JFun "onDismiss") JUndefined JUndefined in
  toast_run p (ticks 150) (toast_mount p 0)
    = Ok (mkToastState 150 false true None [450] [])
  /\ toast_run p (ticks 150 ++ [MouseEnter] ++ ticks 300)%list (toast_mount p 0)
    = Ok (mkToastState 450 true true None [] [("onDismiss", [JStr "t1"])]).
Proof. split; vm_compute; reflexivity. Qed.

(** C2 (amended): a toast with [duration > 0] that is never hovered calls
    [onDismiss(id)] exactly once, 300 ms (the exit animation) after the
    first 50 ms interval tick at or after [duration], and not before; in
    every reachable state where the toast is hovered no interval runs, so a
    tick starts no dismissal; a dismissal started before the hover still
    completes: hovered at any time during the exit animation, the toast
    calls [onDismiss(id)] when the animation ends, while still hovered. *)
Theorem toast_auto_dismiss (id name : string) (duration : Z) (dismissible : bool)
    (onPause onResume : jsval) :
  0 < duration ->
  let p := mkToastProps id duration dismissible (JFun name) onPause onResume in
  duration <= first_tick_after duration < duration + 50
  /\ (forall k : nat, exists st,
        toast_run p (ticks k) (toast_mount p 0) = Ok st
        /\ t_calls st = (if Z.of_nat k <? first_tick_after duration + 300
                         then [] else [(name, [JStr id])]))
  /\ (forall evs st, toast_run p evs (toast_mount p 0) = Ok st ->
        t_paused st = true ->
        t_interval st = None
        /\ forall st', toast_tick p st = Ok st' ->
             t_exiting st' = t_exiting st /\ incl (t_timeouts st') (t_timeouts st))
  /\ (forall (k : nat) (l : list call),
        first_tick_after duration <= Z.of_nat k < first_tick_after duration + 300 ->
        opt_call onPause [JStr id] [] = Ok l ->
        exists st,
          toast_run p (ticks k ++ MouseEnter
                         :: ticks (Z.to_nat (first_tick_after duration + 300 - Z.of_nat k)))%list
            (toast_mount p 0) = Ok st
          /\ t_paused st = true
          /\ t_now st = first_tick_after duration + 300
          /\ t_calls st = (l ++ [(name, [JStr id])])%list).
Proof.
  intros Hd p.
  split; [apply first_tick_after_bounds |].
  split; [| split].
  - intros k. exists (toast_unhovered id name duration k).
    split; [apply toast_unhovered_run; exact Hd |].
    unfold toast_unhovered.
    destruct (Z.ltb_spec (Z.of_nat k) (first_tick_after duration));
      destruct (Z.ltb_spec (Z.of_nat k) (first_tick_after duration + 300));
      try reflexivity; lia.
  - intros evs st Hrun Hp.
    assert (Hinv : paused_inv st).
    { apply (toast_run_paused_inv p evs (toast_mount p 0)); [| exact Hrun].
      unfold paused_inv. discriminate. }
    split; [exact (Hinv Hp) |].
    intros st'. apply toast_tick_no_interval. exact (Hinv Hp).
  - intros k l Hk Hl. subst p.
    set (D := first_tick_after duration) in *.
    rewrite toast_run_app, (toast_unhovered_run id name duration dismissible onPause onResume k Hd).
    unfold toast_unhovered. fold D.
    destruct (Z.ltb_spec (Z.of_nat k) D); [lia |].
    destruct (Z.ltb_spec (Z.of_nat k) (D + 300)); [| lia].
    cbn [exc_bind toast_run toast_step].
    unfold handleMouseEnter, set_paused, toast_effect. cbn [t_paused Bool.eqb].
    cbn [t_now t_exiting t_interval t_timeouts t_calls tp_onPause tp_id].
    rewrite Bool.orb_true_r, Hl. cbn [exc_bind t_now t_paused t_exiting t_interval t_timeouts].
    assert (Hj : Z.to_nat (D + 300 - Z.of_nat k) = S (Z.to_nat (D + 300 - Z.of_nat k - 1)))
      by lia.
    rewrite Hj, ticks_S, toast_run_app, toast_ticks_pending by lia.
    cbn [exc_bind toast_run toast_step].
    rewrite toast_tick_fires by lia. cbn [tp_onDismiss tp_id opt_call exc_bind].
    eexists. split; [reflexivity |]. cbn [t_paused t_now t_calls]. auto.
Qed.

Lemma toast_auto_dismiss_witness :
  let p := mkToastProps "t1" 120 true (JFun "onDismiss") JUndefined JUndefined in
  (exists st, toast_run p (ticks 450) (toast_mount p 0) = Ok st
              /\ t_calls st = [("onDismiss", [JStr "t1"])])
  /\ (exists st, toast_run p (ticks 449) (toast_mount p 0) = Ok st
              /\ t_calls st = [])
  /\ (exists st, toast_run p (ticks 200 ++ MouseEnter :: ticks 250)%list (toast_mount p 0)
                 = Ok st
              /\ t_paused st = true /\ t_calls st = [("onDismiss", [JStr "t1"])]).
Proof.
  destruct (toast_auto_dismiss "t1" "onDismiss" 120 true JUndefined JUndefined
              ltac:(lia)) as (_ & Hk & _ & Hh).
  split; [exact (Hk 450%nat) | split; [exact (Hk 449%nat) |]].
  destruct (Hh 200%nat [] ltac:(unfold first_tick_after; simpl; lia) eq_refl)
    as (st & E & Hp & _ & Hc).
  exists st. split; [exact E | split; [exact Hp | exact Hc]].
Defined.

(** * Further properties of the widgets *)

(** ** Accordion *)

Lemma set_has_delete_other (s : list string) (x y : string) :
  x <> y -> set_has (set_delete s y) x = set_has s x.
Proof.
  intros Hne. unfold set_has, set_delete.
  induction s as [| z s IH]; simpl; [reflexivity |].
  destruct (String.eqb_spec y z) as [-> | Hyz]; simpl.
  - apply String.eqb_neq in Hne. rewrite Hne. exact IH.
  - rewrite IH. reflexivity.
Qed.

Lemma set_has_app (s t : list string) (x : string) :
  set_has (s ++ t)%list x = set_has s x || set_has t x.
Proof. unfold set_has. apply existsb_app. Qed.

Lemma set_has_In (s : list string) (x : string) : set_has s x = true <-> In x s.
Proof.
  unfold set_has. rewrite existsb_exists. split.
  - intros (y & Hy & E). apply String.eqb_eq in E. subst. exact Hy.
  - intros H. exists x. split; [exact H | apply String.eqb_refl].
Qed.

(** In multiple mode [toggleItem(itemId)] calls [onChange] with the new
    open items, flips whether [itemId] is open and leaves every other item
    as it was; so toggling the same item twice restores which items are
    open. *)
Theorem toggleItem_multiple_flips (onChange : jsval) (openItems : list string)
    (log : list call) (itemId : string) (ns : list string) (log' : list call) :
  toggleItem "multiple" onChange openItems log itemId = Ok (ns, log') ->
  opt_call onChange [JArr (map JStr ns)] log = Ok log'
  /\ forall x, set_has ns x = if String.eqb x itemId
                              then negb (set_has openItems itemId)
                              else set_has openItems x.
Proof.
  unfold toggleItem. simpl.
  destruct (opt_call _ _ _) as [l |] eqn:Ecall; simpl; intros H; [| discriminate].
  injection H as <- <-. split; [exact Ecall |]. intros x.
  destruct (String.eqb_spec x itemId) as [-> | Hne].
  - destruct (set_has openItems itemId) eqn:E; simpl.
    + apply set_has_delete.
    + unfold set_add. rewrite E, set_has_app, E. simpl.
      rewrite String.eqb_refl. reflexivity.
  - destruct (set_has openItems itemId) eqn:E.
    + apply set_has_delete_other. exact Hne.
    + unfold set_add. rewrite E, set_has_app. simpl.
      apply String.eqb_neq in Hne. rewrite Hne, Bool.orb_false_r. reflexivity.
Qed.

Lemma toggleItem_multiple_flips_witness :
  toggleItem "multiple" (JFun "onChange") ["a"; "b"] [] "c"
    = Ok (["a"; "b"; "c"], [("onChange", [JArr [JStr "a"; JStr "b"; JStr "c"]])])
  /\ set_has ["a"; "b"; "c"] "c" = true.
Proof.
  split; [reflexivity |].
  rewrite (proj2 (toggleItem_multiple_flips (JFun "onChange") ["a"; "b"] [] "c"
                    ["a"; "b"; "c"] [("onChange", [JArr [JStr "a"; JStr "b"; JStr "c"]])]
                    eq_refl) "c").
  reflexivity.
Defined.

(** ** Select: filtering and keyboard navigation *)

Lemma filteredOptions_length (p : select_props) (st : select_state) :
  (List.length (filteredOptions p st) <= List.length (sp_options p))%nat.
Proof.
  unfold filteredOptions. destruct (_ && _); [apply filter_length_le | lia].
Qed.

Lemma filteredOptions_empty_term (p : select_props) (st : select_state) :
  searchTerm st = "" -> filteredOptions p st = sp_options p.
Proof.
  intros H. unfold filteredOptions. rewrite H. simpl.
  rewrite Bool.andb_false_r. reflexivity.
Qed.

Lemma filteredOptions_same_term (p : select_props) (st st' : select_state) :
  searchTerm st' = searchTerm st -> filteredOptions p st' = filteredOptions p st.
Proof. intros H. unfold filteredOptions. rewrite H. reflexivity. Qed.

(** The keydown handler keeps the highlighted index either -1 or a valid
    index into the options currently shown. *)
Theorem select_highlight_in_range (p : select_props) (key : string)
    (st st' : select_state) :
  highlightedIndex st = -1
  \/ 0 <= highlightedIndex st < Z.of_nat (List.length (filteredOptions p st)) ->
  handleKeyDown p key st = Ok st' ->
  highlightedIndex st' = -1
  \/ 0 <= highlightedIndex st' < Z.of_nat (List.length (filteredOptions p st')).
Proof.
  intros Hinv.
  assert (Hclear : forall s, highlightedIndex s = highlightedIndex st ->
                             searchTerm s = "" ->
                             highlightedIndex s = -1
                             \/ 0 <= highlightedIndex s
                                < Z.of_nat (List.length (filteredOptions p s))).
  { intros s Hh Ht. rewrite Hh. rewrite (filteredOptions_empty_term p s Ht).
    pose proof (filteredOptions_length p st). lia. }
  assert (Hsame : forall s, highlightedIndex s = highlightedIndex st ->
                            searchTerm s = searchTerm st ->
                            highlightedIndex s = -1
                            \/ 0 <= highlightedIndex s
                               < Z.of_nat (List.length (filteredOptions p s))).
  { intros s Hh Ht. rewrite Hh, (filteredOptions_same_term p st s Ht). exact Hinv. }
  assert (Hmove : forall s, searchTerm s = searchTerm st ->
                            highlightedIndex s = -1
                            \/ 0 <= highlightedIndex s
                               < Z.of_nat (List.length (filteredOptions p st)) ->
                            highlightedIndex s = -1
                            \/ 0 <= highlightedIndex s
                               < Z.of_nat (List.length (filteredOptions p s))).
  { intros s Ht. rewrite (filteredOptions_same_term p st s Ht). exact (fun h => h). }
  unfold handleKeyDown.
  destruct (isOpen st).
  - cbn [negb]. cbv zeta.
    destruct (String.eqb key "ArrowDown").
    { intros H. injection H as <-. apply Hmove; [reflexivity |].
      cbn [highlightedIndex set_highlightedIndex].
      destruct (Z.ltb_spec (highlightedIndex st)
                  (Z.of_nat (List.length (filteredOptions p st)) - 1)); lia. }
    destruct (String.eqb key "ArrowUp").
    { intros H. injection H as <-. apply Hmove; [reflexivity |].
      cbn [highlightedIndex set_highlightedIndex].
      destruct (Z.gtb_spec (highlightedIndex st) 0); lia. }
    destruct (String.eqb key "Enter").
    { destruct (highlightedIndex st >=? 0);
        [| intros H; injection H as <-; exact Hinv].
      destruct (nth_error _ _) as [o |]; [| intros H; injection H as <-; exact Hinv].
      unfold handleSelect. destruct (opt_call _ _ _); simpl; intros H; [| discriminate].
      injection H as <-. apply Hclear; reflexivity. }
    destruct (String.eqb key "Escape").
    { intros H. injection H as <-. apply Hclear; reflexivity. }
    destruct (String.eqb key "Tab").
    { intros H. injection H as <-. apply Hclear; reflexivity. }
    intros H. injection H as <-. exact Hinv.
  - simpl. destruct (_ || _); intros H; injection H as <-;
      [apply Hsame; reflexivity | exact Hinv].
Qed.

Lemma select_highlight_in_range_witness :
  let p := mkSelectProps [mkOption (JStr "a") "A"; mkOption (JStr "b") "B"]
             false false JUndefined JUndefined in
  handleKeyDown p "ArrowDown" (mkSelectState true "" 1 []) = Ok (mkSelectState true "" 1 [])
  /\ (highlightedIndex (mkSelectState true "" 1 []) = -1
      \/ 0 <= highlightedIndex (mkSelectState true "" 1 [])
         < Z.of_nat (List.length (filteredOptions p (mkSelectState true "" 1 [])))).
Proof.
  split; [reflexivity |].
  apply (select_highlight_in_range
           (mkSelectProps [mkOption (JStr "a") "A"; mkOption (JStr "b") "B"]
              false false JUndefined JUndefined)
           "ArrowDown" (mkSelectState true "" 1 [])).
  - right. simpl. lia.
  - reflexivity.
Defined.

(** Enter on an open select with a highlighted option calls [onChange] with
    that option's value, closes the dropdown and clears the search term. *)
Theorem select_enter_selects (p : select_props) (st : select_state)
    (o : select_option) (name : string) :
  sp_onChange p = JFun name -> isOpen st = true -> 0 <= highlightedIndex st ->
  nth_error (filteredOptions p st) (Z.to_nat (highlightedIndex st)) = Some o ->
  handleKeyDown p "Enter" st
  = Ok (mkSelectState false "" (highlightedIndex st)
          (s_calls st ++ [(name, [opt_value o])])%list).
Proof.
  intros Hf Ho Hh Hn. unfold handleKeyDown. rewrite Ho. simpl.
  destruct (Z.geb_spec (highlightedIndex st) 0); [| lia].
  rewrite Hn. unfold handleSelect. rewrite Hf. reflexivity.
Qed.

Lemma select_enter_selects_witness :
  let p := mkSelectProps [mkOption (JStr "a") "Apple"; mkOption (JStr "b") "Banana"]
             false true (JFun "onChange") JUndefined in
  handleKeyDown p "Enter" (mkSelectState true "an" 0 [])
  = Ok (mkSelectState false "" 0 [("onChange", [JStr "b"])]).
Proof.
  exact (select_enter_selects
           (mkSelectProps [mkOption (JStr "a") "Apple"; mkOption (JStr "b") "Banana"]
              false true (JFun "onChange") JUndefined)
           (mkSelectState true "an" 0 []) (mkOption (JStr "b") "Banana") "onChange"
           eq_refl eq_refl ltac:(simpl; lia) eq_refl).
Defined.

(** ** Slider *)

(** With [min <= max], a positive step and a track of positive width, the
    slider's value stays in [[min, max]] through mousedown, mousemove and
    keydown. *)
Theorem slider_value_in_range (p : slider_props) (st : slider_state) :
  sl_min p <= sl_max p -> 0 < sl_step p ->
  (forall rect_left rect_width, sl_track p = Some (rect_left, rect_width) -> 0 < rect_width) ->
  sl_min p <= internalValue st <= sl_max p ->
  (forall x st', slider_handleMouseDown p x st = Ok st' ->
                 sl_min p <= internalValue st' <= sl_max p)
  /\ (forall x st', slider_handleMouseMove p x st = Ok st' ->
                    sl_min p <= internalValue st' <= sl_max p)
  /\ (forall key st', slider_handleKeyDown p key st = Ok st' ->
                      sl_min p <= internalValue st' <= sl_max p).
Proof.
  intros Hmm Hs Hw Hv.
  assert (Hg : forall x, sl_min p <= getValueFromPosition p x st <= sl_max p).
  { intros x. unfold getValueFromPosition.
    destruct (sl_track p) as [[l w] |]; lia. }
  split; [| split].
  - intros x st'. unfold slider_handleMouseDown.
    destruct (sl_disabled p); [intros H; injection H as <-; exact Hv |].
    destruct (opt_call _ _ _); simpl; intros H; [| discriminate].
    injection H as <-. apply Hg.
  - intros x st'. unfold slider_handleMouseMove.
    destruct (_ || _); [intros H; injection H as <-; exact Hv |].
    destruct (opt_call _ _ _); simpl; intros H; [| discriminate].
    injection H as <-. apply Hg.
  - intros key st'. unfold slider_handleKeyDown.
    destruct (sl_disabled p); [intros H; injection H as <-; exact Hv |].
    repeat match goal with
           | |- context [if ?b then _ else _] => destruct b
           end; simpl;
      try (intros H; injection H as <-; exact Hv);
      (destruct (opt_call _ _ _); simpl; intros H; [| discriminate]);
      injection H as <-; simpl; lia.
Qed.

Lemma slider_value_in_range_witness :
  slider_handleMouseDown (mkSliderProps 0 100 10 false JUndefined (Some (0, 200))) 150
    (mkSliderState 95 false []) = Ok (mkSliderState 80 true [])
  /\ 0 <= internalValue (mkSliderState 80 true []) <= 100.
Proof.
  split; [reflexivity |].
  apply (proj1 (slider_value_in_range (mkSliderProps 0 100 10 false JUndefined (Some (0, 200)))
                  (mkSliderState 95 false []) ltac:(simpl; lia) ltac:(simpl; lia)
                  ltac:(intros l w H; injection H as _ <-; lia)
                  ltac:(simpl; lia)) 150).
  reflexivity.
Defined.

(** Dragging further right never gives a smaller value: with a track of
    positive width, a positive step and [min <= max], the value read from
    a pointer position is monotone in it. *)
Theorem getValueFromPosition_monotone (p : slider_props) (st : slider_state)
    (rect_left rect_width x1 x2 : Z) :
  sl_track p = Some (rect_left, rect_width) -> 0 < rect_width -> 0 < sl_step p ->
  sl_min p <= sl_max p -> x1 <= x2 ->
  getValueFromPosition p x1 st <= getValueFromPosition p x2 st.
Proof.
  intros Ht Hw Hs Hmm Hx. unfold getValueFromPosition. rewrite Ht.
  apply Z.max_le_compat_l, Z.min_le_compat_l.
  apply Z.mul_le_mono_nonneg_r; [lia |].
  unfold js_round_div. apply Z.div_le_mono; [nia | nia].
Qed.

Lemma getValueFromPosition_monotone_witness :
  getValueFromPosition (mkSliderProps 0 100 10 false JUndefined (Some (0, 200))) 90
    (mkSliderState 0 false []) = 50
  /\ getValueFromPosition (mkSliderProps 0 100 10 false JUndefined (Some (0, 200))) 90
       (mkSliderState 0 false [])
     <= getValueFromPosition (mkSliderProps 0 100 10 false JUndefined (Some (0, 200))) 110
          (mkSliderState 0 false []).
Proof.
  split; [reflexivity |].
  apply (getValueFromPosition_monotone (mkSliderProps 0 100 10 false JUndefined (Some (0, 200)))
           (mkSliderState 0 false []) 0 200 90 110); [reflexivity | lia | simpl; lia | simpl; lia | lia].
Defined.

(** [Slider.Range] only ever reports an ordered range. With [[start, end]]
    the current range ([value], or [[min, max]]), a new start is reported
    as [[newStart, end]] only when [newStart <= end], and a new start above
    [end] reports nothing; a new end is reported as [[start, newEnd]] only
    when [start <= newEnd], and a new end below [start] reports nothing. *)
Theorem SliderRange_emits_ordered (value : option (Z * Z)) (min max start end_ : Z)
    (onChange : jsval) (x : Z) (log log' : list call) :
  SliderRange_bounds value min max = (start, end_) ->
  (SliderRange_handleStartChange value min max onChange x log = Ok log' ->
   log' = log
   \/ exists name, onChange = JFun name /\ x <= end_
                   /\ log' = (log ++ [(name, [JArr [JNum x; JNum end_]])])%list)
  /\ (end_ < x -> SliderRange_handleStartChange value min max onChange x log = Ok log)
  /\ (SliderRange_handleEndChange value min max onChange x log = Ok log' ->
   log' = log
   \/ exists name, onChange = JFun name /\ start <= x
                   /\ log' = (log ++ [(name, [JArr [JNum start; JNum x]])])%list)
  /\ (x < start -> SliderRange_handleEndChange value min max onChange x log = Ok log).
Proof.
  intros Hb. unfold SliderRange_handleStartChange, SliderRange_handleEndChange.
  rewrite Hb. split; [| split; [| split]].
  - destruct (Z.leb_spec x end_) as [Hle | Hgt]; intros H;
      [| injection H as <-; left; reflexivity].
    destruct onChange as [| | | | | fn | |]; simpl in H; try discriminate;
      injection H as <-; try (left; reflexivity).
    right. exists fn. auto.
  - intros Hx. destruct (Z.leb_spec x end_); [lia | reflexivity].
  - destruct (Z.geb_spec x start) as [Hge | Hlt]; intros H;
      [| injection H as <-; left; reflexivity].
    destruct onChange as [| | | | | fn | |]; simpl in H; try discriminate;
      injection H as <-; try (left; reflexivity).
    right. exists fn. split; [reflexivity | split; [lia | reflexivity]].
  - intros Hx. destruct (Z.geb_spec x start); [lia | reflexivity].
Qed.

Lemma SliderRange_emits_ordered_witness :
  SliderRange_handleStartChange (Some (20, 60)) 0 100 (JFun "onChange") 30 []
    = Ok [("onChange", [JArr [JNum 30; JNum 60]])]
  /\ SliderRange_handleStartChange (Some (20, 60)) 0 100 (JFun "onChange") 70 [] = Ok [].
Proof.
  destruct (SliderRange_emits_ordered (Some (20, 60)) 0 100 20 60 (JFun "onChange") 70 []
              [] eq_refl) as (_ & H & _).
  split; [reflexivity | apply H; lia].
Defined.

(** ** The toast queue: the helpers' defaults and [updateToast] *)

Lemma assoc_set_keys (a : list (string * jsval)) (k k' : string) (v : jsval) :
  set_has (map fst (assoc_set a k' v)) k = set_has (map fst a) k || String.eqb k k'.
Proof.
  unfold set_has.
  induction a as [| [k'' v''] a IH]; cbn [assoc_set].
  - cbn [map existsb fst]. destruct (String.eqb k k'); reflexivity.
  - destruct (String.eqb_spec k' k'') as [-> | Hne]; cbn [map existsb fst].
    + destruct (String.eqb k k''); simpl; rewrite ?Bool.orb_false_r; reflexivity.
    + rewrite IH. apply Bool.orb_assoc.
Qed.

Lemma assoc_set_NoDup (a : list (string * jsval)) (k : string) (v : jsval) :
  NoDup (map fst a) -> NoDup (map fst (assoc_set a k v)).
Proof.
  induction a as [| [k' v'] a IH]; intros Hnd; simpl.
  - repeat constructor. intros [].
  - inversion Hnd as [| ? ? Hk' Hnd']; subst.
    destruct (String.eqb k k') eqn:E; simpl; constructor; auto.
    intros Hin. apply Hk'.
    apply set_has_In in Hin. rewrite assoc_set_keys in Hin.
    apply Bool.orb_true_iff in Hin. destruct Hin as [Hin | Hin].
    + apply set_has_In. exact Hin.
    + apply String.eqb_eq in Hin. subst. rewrite String.eqb_refl in E. discriminate.
Qed.

Lemma spread_keys (a b : list (string * jsval)) (k : string) :
  set_has (map fst (spread a b)) k = set_has (map fst a) k || set_has (map fst b) k.
Proof.
  unfold spread. revert a.
  induction b as [| [k' v] b IH]; intros a; cbn [fold_left map fst snd].
  - unfold set_has at 3. simpl. rewrite Bool.orb_false_r. reflexivity.
  - rewrite IH, assoc_set_keys. unfold set_has. cbn [existsb].
    destruct (existsb (String.eqb k) (map fst a)), (String.eqb k k'); reflexivity.
Qed.

Lemma spread_NoDup (a b : list (string * jsval)) :
  NoDup (map fst a) -> NoDup (map fst (spread a b)).
Proof.
  unfold spread. revert a.
  induction b as [| [k' v] b IH]; intros a Hnd; simpl; [exact Hnd |].
  apply IH, assoc_set_NoDup, Hnd.
Qed.

(** A field of the toast that [showToast(spread base options)] adds: taken
    from [options], else from [base], else from [defaultConfig]. *)
Lemma showToast_spread_field (id : string) (now : Z) (base options : toast_record)
    (prev : list toast_record) (k : string) :
  NoDup (map fst base) -> NoDup (map fst options) -> k <> "id" -> k <> "createdAt" ->
  assoc_get (hd [] (fst (showToast id now (spread base options) prev))) k
  = if set_has (map fst options) k then assoc_get options k
    else if set_has (map fst base) k then assoc_get base k
    else assoc_get defaultConfig k.
Proof.
  intros Hb Ho Hid Hca. unfold showToast. cbn [fst hd].
  rewrite assoc_get_spread
    by (simpl; constructor; [intros [E | []]; discriminate | repeat constructor; intros []]).
  apply String.eqb_neq in Hid. apply String.eqb_neq in Hca.
  simpl. rewrite Hid, Hca. simpl.
  rewrite assoc_get_spread by (apply spread_NoDup, Hb).
  fold (set_has (map fst (spread base options)) k).
  rewrite spread_keys, assoc_get_spread by exact Ho.
  fold (set_has (map fst options) k).
  destruct (set_has (map fst options) k); destruct (set_has (map fst base) k); reflexivity.
Qed.

(** Each helper's toast lasts its variant's default ([showError] 8000 ms,
    [showWarning] 7000 ms, the others [defaultConfig]'s 5000 ms) unless
    [options] sets a [duration]. *)
Theorem toast_helpers_duration (id : string) (now : Z) (message title : jsval)
    (options : toast_record) (prev : list toast_record) :
  NoDup (map fst options) ->
  let d dflt := if set_has (map fst options) "duration"
                then assoc_get options "duration" else JNum dflt in
  assoc_get (hd [] (fst (showSuccess id now message title options prev))) "duration" = d 5000
  /\ assoc_get (hd [] (fst (showError id now message title options prev))) "duration" = d 8000
  /\ assoc_get (hd [] (fst (showWarning id now message title options prev))) "duration" = d 7000
  /\ assoc_get (hd [] (fst (showInfo id now message title options prev))) "duration" = d 5000.
Proof.
  intros Ho d. unfold d, showSuccess, showError, showWarning, showInfo.
  split; [| split; [| split]];
    (rewrite showToast_spread_field;
     [ | simpl; repeat constructor; simpl; intuition discriminate
       | exact Ho | discriminate | discriminate ]);
    destruct (set_has (map fst options) "duration"); reflexivity.
Qed.

Lemma toast_helpers_duration_witness :
  assoc_get (hd [] (fst (showError "t1" 0 (JStr "Oops") JUndefined
                           [("duration", JNum 1000)] []))) "duration" = JNum 1000
  /\ assoc_get (hd [] (fst (showWarning "t1" 0 (JStr "Careful") JUndefined [] [])))
       "duration" = JNum 7000.
Proof.
  destruct (toast_helpers_duration "t1" 0 (JStr "Oops") JUndefined
              [("duration", JNum 1000)] [] ltac:(repeat constructor; intros []))
    as (_ & H & _).
  destruct (toast_helpers_duration "t1" 0 (JStr "Careful") JUndefined [] []
              ltac:(constructor)) as (_ & _ & H' & _).
  split; [exact H | exact H'].
Defined.

(** [showError]'s title is [options.title] if given, else the [title]
    argument when truthy, else ["Error"]; its variant is ["error"] unless
    [options] overrides it. *)
Theorem showError_title (id : string) (now : Z) (message title : jsval)
    (options : toast_record) (prev : list toast_record) :
  NoDup (map fst options) ->
  assoc_get (hd [] (fst (showError id now message title options prev))) "title"
  = (if set_has (map fst options) "title" then assoc_get options "title"
     else if truthy title then title else JStr "Error")
  /\ assoc_get (hd [] (fst (showError id now message title options prev))) "variant"
  = (if set_has (map fst options) "variant" then assoc_get options "variant"
     else JStr "error").
Proof.
  intros Ho. unfold showError.
  split;
    (rewrite showToast_spread_field;
     [ | simpl; repeat constructor; simpl; intuition discriminate
       | exact Ho | discriminate | discriminate ]);
    destruct (set_has (map fst options) _); reflexivity.
Qed.

Lemma showError_title_witness :
  assoc_get (hd [] (fst (showError "t1" 0 (JStr "Oops") JUndefined [] []))) "title"
  = JStr "Error".
Proof.
  exact (proj1 (showError_title "t1" 0 (JStr "Oops") JUndefined [] [] ltac:(constructor))).
Defined.

(** [updateToast(id, updates)] keeps the number of toasts; a toast with
    another id is left as it is, and the toast with that id reads each field
    of [updates] from [updates] and every other field from itself. When
    [updates] has no [id], every toast keeps its id. [updates] is an object,
    so its keys are distinct. *)
Theorem updateToast_shape (id : string) (updates : toast_record)
    (prev : list toast_record) :
  List.length (updateToast id updates prev) = List.length prev
  /\ (forall i t, nth_error prev i = Some t -> assoc_get t "id" <> JStr id ->
                  nth_error (updateToast id updates prev) i = Some t)
  /\ (NoDup (map fst updates) ->
      forall i t, nth_error prev i = Some t -> assoc_get t "id" = JStr id ->
      exists t', nth_error (updateToast id updates prev) i = Some t'
                 /\ forall k, assoc_get t' k = if set_has (map fst updates) k
                                               then assoc_get updates k
                                               else assoc_get t k)
  /\ (NoDup (map fst updates) -> set_has (map fst updates) "id" = false ->
      map (fun t => assoc_get t "id") (updateToast id updates prev)
      = map (fun t => assoc_get t "id") prev).
Proof.
  unfold updateToast, toast_record in *. split; [apply length_map | split; [| split]].
  - intros i t Hi Ht. rewrite nth_error_map, Hi. simpl.
    destruct (strict_eq (assoc_get t "id") (JStr id)) eqn:E; [| reflexivity].
    apply strict_eq_str in E. contradiction.
  - intros Hnd i t Hi Ht. rewrite nth_error_map, Hi. simpl.
    apply strict_eq_str in Ht. rewrite Ht.
    eexists. split; [reflexivity |]. intros k.
    rewrite assoc_get_spread by exact Hnd. reflexivity.
  - intros Hnd Hid. rewrite map_map. apply map_ext. intros t.
    destruct (strict_eq (assoc_get t "id") (JStr id)); [| reflexivity].
    rewrite assoc_get_spread by exact Hnd. fold (set_has (map fst updates) "id").
    rewrite Hid. reflexivity.
Qed.

Lemma updateToast_shape_witness :
  updateToast "t1" [("message", JStr "Saved")]
    [[("id", JStr "t1"); ("message", JStr "Saving")]; [("id", JStr "t2")]]
  = [[("id", JStr "t1"); ("message", JStr "Saved")]; [("id", JStr "t2")]]
  /\ exists t', nth_error (updateToast "t1" [("message", JStr "Saved")]
                   [[("id", JStr "t1"); ("message", JStr "Saving")]; [("id", JStr "t2")]]) 0
                 = Some t'
               /\ assoc_get t' "message" = JStr "Saved".
Proof.
  split; [reflexivity |].
  destruct (proj1 (proj2 (proj2 (updateToast_shape "t1" [("message", JStr "Saved")]
              [[("id", JStr "t1"); ("message", JStr "Saving")]; [("id", JStr "t2")]])))
              ltac:(repeat constructor; intros []) 0%nat
              [("id", JStr "t1"); ("message", JStr "Saving")] eq_refl eq_refl)
    as (t' & E & Hk).
  exists t'. split; [exact E |]. rewrite Hk. reflexivity.
Defined.

(** [ToastContainer] shows [min(maxToasts, n)] of [n] toasts for a
    non-negative [maxToasts] (a negative one drops that many from the end);
    with [maxToasts >= 1] the newest toast is always shown. *)
Theorem visibleToasts_count (maxToasts : Z) (toasts : list toast_record) :
  Z.of_nat (List.length (visibleToasts maxToasts toasts))
  = if 0 <=? maxToasts then Z.min maxToasts (Z.of_nat (List.length toasts))
    else Z.max 0 (Z.of_nat (List.length toasts) + maxToasts).
Proof.
  unfold visibleToasts, js_slice0.
  destruct (Z.geb_spec maxToasts 0), (Z.leb_spec 0 maxToasts); try lia.
  - rewrite length_firstn. lia.
  - rewrite length_firstn. lia.
Qed.

Theorem visibleToasts_newest (maxToasts : Z) (id : string) (now : Z)
    (toast : toast_record) (prev : list toast_record) :
  1 <= maxToasts ->
  exists nt rest, visibleToasts maxToasts (fst (showToast id now toast prev)) = nt :: rest
                  /\ assoc_get nt "id" = JStr id.
Proof.
  intros Hm. destruct (showToast_new_id id now toast prev) as (nt & -> & Hid).
  unfold visibleToasts, js_slice0.
  destruct (Z.geb_spec maxToasts 0); [| lia].
  destruct (Z.to_nat maxToasts) eqn:E; [lia |].
  simpl. exists nt, (firstn n prev). split; [reflexivity | exact Hid].
Qed.

Lemma visibleToasts_newest_witness :
  exists nt rest, visibleToasts 1 (fst (showToast "t2" 0 [] [[("id", JStr "t1")]]))
                  = nt :: rest /\ assoc_get nt "id" = JStr "t2".
Proof.
  apply (visibleToasts_newest 1 "t2" 0 [] [[("id", JStr "t1")]]). lia.
Defined.

(** ** ThemeProvider *)

(** [toggleTheme] always picks ["light"] or ["dark"], different from the
    theme in effect, and stores it when there is a [window]; toggling twice
    comes back to the theme in effect when that is light or dark. *)
Theorem toggleTheme_flips (env : theme_env) (st : theme_state) :
  (theme (toggleTheme env st) = "light" \/ theme (toggleTheme env st) = "dark")
  /\ theme (toggleTheme env st) <> resolveTheme env (theme st)
  /\ (has_window env = true -> stored_theme (toggleTheme env st) = Some (theme (toggleTheme env st)))
  /\ (has_window env = false -> stored_theme (toggleTheme env st) = stored_theme st).
Proof.
  unfold toggleTheme, setTheme. cbn [theme stored_theme].
  destruct (String.eqb_spec (resolveTheme env (theme st)) "dark") as [E | E].
  - rewrite E. split; [left; reflexivity | split; [discriminate |]].
    destruct (has_window env); split; intros H; congruence.
  - split; [right; reflexivity | split; [intros H; apply E; symmetry; exact H |]].
    destruct (has_window env); split; intros H; congruence.
Qed.

Lemma toggleTheme_flips_witness :
  stored_theme (toggleTheme (mkThemeEnv true false) (mkThemeState "system" None))
  = Some "dark".
Proof.
  exact (proj1 (proj2 (proj2 (toggleTheme_flips (mkThemeEnv true false)
                                 (mkThemeState "system" None)))) eq_refl).
Defined.

Theorem toggleTheme_twice (env : theme_env) (st : theme_state) :
  resolveTheme env (theme st) = "light" \/ resolveTheme env (theme st) = "dark" ->
  theme (toggleTheme env (toggleTheme env st)) = resolveTheme env (theme st).
Proof.
  intros [E | E]; unfold toggleTheme, setTheme; cbn [theme]; rewrite E; reflexivity.
Qed.

Lemma toggleTheme_twice_witness :
  theme (toggleTheme (mkThemeEnv true true) (toggleTheme (mkThemeEnv true true)
           (mkThemeState "system" None))) = "dark".
Proof.
  exact (toggleTheme_twice (mkThemeEnv true true) (mkThemeState "system" None)
           (or_intror eq_refl)).
Defined.

(** ** Radio *)

Ltac z_cases :=
  repeat match goal with
         | |- context [Z.geb ?a ?b] => destruct (Z.geb_spec a b)
         | |- context [Z.ltb ?a ?b] => destruct (Z.ltb_spec a b)
         end.

(** The arrow keys move from a radio among [len] to another one of them,
    wrapping around at both ends, and down then up (or up then down) comes
    back to the radio it started from. *)
Theorem Radio_arrow_target_in_range (index len : Z) :
  0 <= index < len ->
  (forall key t, Radio_arrow_target key index len = Some t -> 0 <= t < len)
  /\ (forall t, Radio_arrow_target "ArrowDown" index len = Some t ->
                Radio_arrow_target "ArrowUp" t len = Some index)
  /\ (forall t, Radio_arrow_target "ArrowUp" index len = Some t ->
                Radio_arrow_target "ArrowDown" t len = Some index).
Proof.
  intros Hi. unfold Radio_arrow_target. split; [| split].
  - intros key t.
    destruct (String.eqb key "ArrowDown" || String.eqb key "ArrowRight").
    { intros H. injection H as <-. destruct (Z.geb_spec (index + 1) len); lia. }
    destruct (String.eqb key "ArrowUp" || String.eqb key "ArrowLeft"); [| discriminate].
    intros H. injection H as <-. destruct (Z.ltb_spec (index - 1) 0); lia.
  - intros t H. cbn in H |- *. injection H as <-. f_equal.
    destruct (Z.geb_spec (index + 1) len); z_cases; lia.
  - intros t H. cbn in H |- *. injection H as <-. f_equal.
    destruct (Z.ltb_spec (index - 1) 0); z_cases; lia.
Qed.

Lemma Radio_arrow_target_in_range_witness :
  Radio_arrow_target "ArrowDown" 2 3 = Some 0
  /\ Radio_arrow_target "ArrowUp" 0 3 = Some 2.
Proof.
  split; [reflexivity |].
  apply (proj1 (proj2 (Radio_arrow_target_in_range 2 3 ltac:(lia)))). reflexivity.
Defined.

(** Inside a [RadioGroup], a radio's change calls the group's
    [handleChange] with its value unless the radio or the group is
    disabled; outside any group, an enabled radio's change throws, since
    [onChange] of the empty default context is [undefined]. *)
Theorem Radio_handleChange_scope (ps : providers) (name : string) (sel : jsval)
    (groupDisabled required disabled : bool) (value : jsval) (log : list call) :
  Radio_handleChange (RadioGroup_scope ps name sel groupDisabled required) value disabled log
  = (if disabled || groupDisabled then Ok log
     else Ok (log ++ [("handleChange", [value])])%list)
  /\ (~ In "RadioContext" (map fst ps) ->
      Radio_handleChange ps value false log = Throw "TypeError: not a function").
Proof.
  split.
  - unfold Radio_handleChange, RadioGroup_scope. simpl.
    destruct disabled, groupDisabled; reflexivity.
  - intros Hn. unfold Radio_handleChange.
    rewrite (useContext_absent RadioContext ps Hn). reflexivity.
Qed.

Lemma Radio_handleChange_scope_witness :
  Radio_handleChange [] (JStr "a") false [] = Throw "TypeError: not a function".
Proof.
  exact (proj2 (Radio_handleChange_scope [] "g" JUndefined false false false (JStr "a") [])
           (fun H => H)).
Defined.

(** After a change in an uncontrolled [RadioGroup], the radio whose value
    was chosen renders checked; a controlled group keeps showing its
    [value] prop whatever was chosen. *)
Theorem RadioGroup_change_then_render (ps : providers) (name s : string)
    (controlledValue onChange unc unc' : jsval) (gd req d : bool)
    (log log' : list call) :
  (RadioGroup_handleChange JUndefined onChange (JStr s) unc log = Ok (unc', log') ->
   exists m, Radio (RadioGroup_scope ps name (RadioGroup_selectedValue JUndefined unc') gd req)
               (JStr s) d = Ok m /\ rm_checked m = true)
  /\ (controlledValue <> JUndefined ->
      RadioGroup_handleChange controlledValue onChange (JStr s) unc log = Ok (unc', log') ->
      RadioGroup_selectedValue controlledValue unc' = controlledValue).
Proof.
  split.
  - unfold RadioGroup_handleChange. simpl.
    destruct (opt_call onChange [JStr s] log); simpl; intros H; [| discriminate].
    injection H as <- _. eexists. split; [reflexivity |]. simpl.
    apply String.eqb_refl.
  - intros Hc _. unfold RadioGroup_selectedValue.
    destruct controlledValue; try reflexivity. contradiction.
Qed.

Lemma RadioGroup_change_then_render_witness :
  exists m, Radio (RadioGroup_scope [] "size"
                     (RadioGroup_selectedValue JUndefined (JStr "lg")) false false)
              (JStr "lg") false = Ok m /\ rm_checked m = true.
Proof.
  apply (proj1 (RadioGroup_change_then_render [] "size" "lg" JUndefined (JFun "onChange")
                  (JStr "md") (JStr "lg") false false false []
                  [("onChange", [JStr "lg"])])).
  reflexivity.
Defined.

(** ** CheckboxGroup *)

Lemma strict_eq_true (a b : jsval) : strict_eq a b = true -> a = b.
Proof.
  destruct a, b; simpl; intros H; try discriminate; try reflexivity.
  - apply Bool.eqb_prop in H. subst. reflexivity.
  - apply Z.eqb_eq in H. subst. reflexivity.
  - apply String.eqb_eq in H. subst. reflexivity.
Qed.

Lemma strict_eq_sym (a b : jsval) : strict_eq a b = strict_eq b a.
Proof.
  destruct a, b; simpl; try reflexivity.
  - destruct b, b0; reflexivity.
  - apply Z.eqb_sym.
  - apply String.eqb_sym.
Qed.

(** Checking a box in a [CheckboxGroup] adds its value, so the box renders
    checked; unchecking removes every copy of it; other boxes are not
    affected; and checking then unchecking a box that was unchecked gives
    back the original values. Values are primitives ([v === v]). *)
Theorem CheckboxGroup_toggle (selectedValues : list jsval) (v w : jsval) (b : bool) :
  strict_eq v v = true ->
  Checkbox_isChecked_in_group (CheckboxGroup_newValues selectedValues v true) v = true
  /\ Checkbox_isChecked_in_group (CheckboxGroup_newValues selectedValues v false) v = false
  /\ (strict_eq w v = false ->
      Checkbox_isChecked_in_group (CheckboxGroup_newValues selectedValues v b) w
      = Checkbox_isChecked_in_group selectedValues w)
  /\ (Checkbox_isChecked_in_group selectedValues v = false ->
      CheckboxGroup_newValues (CheckboxGroup_newValues selectedValues v true) v false
      = selectedValues).
Proof.
  intros Hv. unfold Checkbox_isChecked_in_group, js_includes, CheckboxGroup_newValues.
  split; [| split; [| split]].
  - rewrite existsb_app. simpl. rewrite Hv. apply Bool.orb_true_r.
  - induction selectedValues as [| x l IH]; [reflexivity |]. simpl.
    destruct (strict_eq x v) eqn:E; simpl; [exact IH |].
    rewrite strict_eq_sym, E. exact IH.
  - intros Hw. destruct b.
    + rewrite existsb_app. simpl. rewrite Hw. apply Bool.orb_false_r.
    + induction selectedValues as [| x l IH]; [reflexivity |]. simpl.
      destruct (strict_eq x v) eqn:E; simpl.
      * apply strict_eq_true in E. subst x. rewrite Hw. exact IH.
      * rewrite IH. reflexivity.
  - intros Habs. rewrite filter_app. simpl. rewrite Hv. simpl.
    rewrite app_nil_r.
    induction selectedValues as [| x l IH]; [reflexivity |].
    simpl in Habs |- *. apply Bool.orb_false_iff in Habs. destruct Habs as [Hx Hl].
    rewrite strict_eq_sym, Hx. simpl. rewrite IH by exact Hl. reflexivity.
Qed.

Lemma CheckboxGroup_toggle_witness :
  CheckboxGroup_newValues (CheckboxGroup_newValues [JStr "a"; JStr "c"] (JStr "b") true)
    (JStr "b") false = [JStr "a"; JStr "c"].
Proof.
  exact (proj2 (proj2 (proj2 (CheckboxGroup_toggle [JStr "a"; JStr "c"] (JStr "b")
                                (JStr "a") true eq_refl))) eq_refl).
Defined.

(** ** Pagination *)

(** A page click calls [onPageChange] only for a page other than the
    current one, never for an ellipsis; the Previous and Next buttons, on a
    page in [[1, totalPages]], only move to the adjacent page in that
    range. *)
Theorem Pagination_clicks (currentPage totalPages : Z) (onPageChange : jsval)
    (page : page_item) (log log' : list call) :
  (handlePageClick currentPage onPageChange page log = Ok log' ->
   log' = log \/ exists name n, page = Page n /\ n <> currentPage
                                /\ onPageChange = JFun name
                                /\ log' = (log ++ [(name, [JNum n])])%list)
  /\ (1 <= currentPage <= totalPages ->
      (Pagination_prev currentPage onPageChange log = Ok log' ->
       log' = log \/ exists name, log' = (log ++ [(name, [JNum (currentPage - 1)])])%list
                                  /\ 1 <= currentPage - 1 <= totalPages)
      /\ (Pagination_next currentPage totalPages onPageChange log = Ok log' ->
       log' = log \/ exists name, log' = (log ++ [(name, [JNum (currentPage + 1)])])%list
                                  /\ 1 <= currentPage + 1 <= totalPages)).
Proof.
  split; [| intros Hc; split].
  - unfold handlePageClick. destruct page as [n |]; [| intros H; injection H as <-; left; reflexivity].
    destruct (Z.eqb_spec n currentPage) as [Heq | Hne]; [intros H; injection H as <-; left; reflexivity |].
    destruct onPageChange as [| | | | | name | |]; simpl; intros H; try discriminate.
    injection H as <-. right. exists name, n. auto.
  - unfold Pagination_prev, handlePageClick.
    destruct (Z.leb_spec currentPage 1) as [Hle | Hgt]; [intros H; injection H as <-; left; reflexivity |].
    destruct (Z.eqb_spec (currentPage - 1) currentPage) as [Heq | Hne]; [lia |].
    destruct onPageChange as [| | | | | name | |]; simpl; intros H; try discriminate.
    injection H as <-. right. exists name. split; [reflexivity | lia].
  - unfold Pagination_next, handlePageClick.
    destruct (Z.geb_spec currentPage totalPages) as [Hge | Hlt];
      [intros H; injection H as <-; left; reflexivity |].
    destruct (Z.eqb_spec (currentPage + 1) currentPage) as [Heq | Hne]; [lia |].
    destruct onPageChange as [| | | | | name | |]; simpl; intros H; try discriminate.
    injection H as <-. right. exists name. split; [reflexivity | lia].
Qed.

Lemma Pagination_clicks_witness :
  Pagination_next 3 5 (JFun "onPageChange") [] = Ok [("onPageChange", [JNum 4])]
  /\ (Pagination_next 3 5 (JFun "onPageChange") [] = Ok [("onPageChange", [JNum 4])] ->
      [("onPageChange", [JNum 4])] = []
      \/ exists name, [("onPageChange", [JNum 4])] = ([] ++ [(name, [JNum (3 + 1)])])%list
                      /\ 1 <= 3 + 1 <= 5).
Proof.
  split; [reflexivity |].
  exact (proj2 (proj2 (Pagination_clicks 3 5 (JFun "onPageChange") (Page 4) []
                         [("onPageChange", [JNum 4])]) ltac:(lia))).
Defined.

(** "Showing [start] to [end] of [total]": on a page that has items,
    [1 <= start <= end <= total] and the page shows at most
    [itemsPerPage] items. *)
Theorem Pagination_range_bounds (currentPage itemsPerPage totalItems : Z) :
  1 <= currentPage -> 1 <= itemsPerPage ->
  (currentPage - 1) * itemsPerPage < totalItems ->
  1 <= fst (Pagination_range currentPage itemsPerPage totalItems)
  /\ fst (Pagination_range currentPage itemsPerPage totalItems)
     <= snd (Pagination_range currentPage itemsPerPage totalItems)
  /\ snd (Pagination_range currentPage itemsPerPage totalItems) <= totalItems
  /\ snd (Pagination_range currentPage itemsPerPage totalItems)
     - fst (Pagination_range currentPage itemsPerPage totalItems) + 1 <= itemsPerPage.
Proof.
  intros Hc Hi Ht. unfold Pagination_range. cbn [fst snd]. nia.
Qed.

Lemma Pagination_range_bounds_witness :
  Pagination_range 3 10 25 = (21, 25) /\ 1 <= fst (Pagination_range 3 10 25).
Proof.
  split; [reflexivity |].
  apply (proj1 (Pagination_range_bounds 3 10 25 ltac:(lia) ltac:(lia) ltac:(lia))).
Defined.

(** ** Toast: no countdown, pausing and resuming *)

Lemma toast_step_no_countdown (p : toast_props) (ev : toast_event) (st st' : toast_state) :
  tp_duration p <= 0 -> (ev = CloseClick -> tp_dismissible p = false) ->
  t_exiting st = false -> t_interval st = None -> t_timeouts st = [] ->
  toast_step p ev st = Ok st' ->
  t_exiting st' = false /\ t_interval st' = None /\ t_timeouts st' = [].
Proof.
  intros Hd Hc He Hi Ht.
  destruct st as [n ps ex iv ts c]; cbn [t_exiting t_interval t_timeouts] in *; subst.
  destruct ev; cbn [toast_step].
  - unfold toast_tick, toast_interval_fire. simpl. intros H. injection H as <-. auto.
  - unfold handleMouseEnter, set_paused, toast_effect. cbn [t_paused].
    destruct (tp_duration p <=? 0) eqn:E; [| lia].
    destruct (Bool.eqb true ps); simpl;
      (destruct (opt_call _ _ _); simpl; intros H; [| discriminate]);
      injection H as <-; auto.
  - unfold handleMouseLeave, set_paused, toast_effect. cbn [t_paused].
    destruct (tp_duration p <=? 0) eqn:E; [| lia].
    destruct (Bool.eqb false ps); simpl;
      (destruct (opt_call _ _ _); simpl; intros H; [| discriminate]);
      injection H as <-; auto.
  - rewrite Hc by reflexivity. intros H. injection H as <-. auto.
Qed.

(** A toast with [duration <= 0] never starts its countdown: whatever the
    hovering, it is still shown, with no interval and no exit timeout
    pending, unless the user closes it. *)
Theorem toast_no_duration_stays (p : toast_props) (now : Z)
    (evs : list toast_event) (st' : toast_state) :
  tp_duration p <= 0 ->
  (tp_dismissible p = false \/ ~ In CloseClick evs) ->
  toast_run p evs (toast_mount p now) = Ok st' ->
  t_exiting st' = false /\ t_interval st' = None /\ t_timeouts st' = [].
Proof.
  intros Hd Hc.
  assert (Hinv : t_exiting (toast_mount p now) = false
                 /\ t_interval (toast_mount p now) = None
                 /\ t_timeouts (toast_mount p now) = []).
  { unfold toast_mount, toast_effect. simpl.
    destruct (Z.leb_spec (tp_duration p) 0); [| lia]. auto. }
  revert Hinv. generalize (toast_mount p now) as st.
  induction evs as [| ev evs IH]; intros st (He & Hi & Ht) H; simpl in H.
  - injection H as <-. auto.
  - destruct (toast_step p ev st) as [s |] eqn:Es; simpl in H; [| discriminate].
    apply (IH (ltac:(destruct Hc as [Hc | Hc]; [left; exact Hc |
                                                right; intros Hin; apply Hc; right; exact Hin]))
           s); [| exact H].
    apply (toast_step_no_countdown p ev st s Hd); auto.
    intros ->. destruct Hc as [Hc | Hc]; [exact Hc | exfalso; apply Hc; left; reflexivity].
Qed.

Lemma toast_no_duration_stays_witness :
  let p := mkToastProps "t1" 0 true (JFun "onDismiss") JUndefined JUndefined in
  toast_run p (ticks 100 ++ [MouseEnter; MouseLeave])%list (toast_mount p 0)
    = Ok (mkToastState 100 false false None [] [])
  /\ t_exiting (mkToastState 100 false false None [] []) = false.
Proof.
  split; [vm_compute; reflexivity |].
  apply (toast_no_duration_stays (mkToastProps "t1" 0 true (JFun "onDismiss") JUndefined JUndefined)
           0 (ticks 100 ++ [MouseEnter; MouseLeave])%list).
  - simpl. lia.
  - right. intros H. apply in_app_or in H. destruct H as [H | H].
    + apply repeat_spec in H. discriminate.
    + simpl in H. destruct H as [H | [H | []]]; discriminate.
  - vm_compute. reflexivity.
Defined.

(** Hovering a counting-down toast stops its interval; leaving it starts a
    new interval for the whole [duration] from the current time, so the
    countdown restarts rather than resumes. Neither changes the exit state. *)
Theorem toast_pause_resume (p : toast_props) (st st' : toast_state) :
  (t_paused st = false -> handleMouseEnter p st = Ok st' ->
   t_paused st' = true /\ t_interval st' = None
   /\ t_exiting st' = t_exiting st /\ t_timeouts st' = t_timeouts st)
  /\ (t_paused st = true -> 0 < tp_duration p -> handleMouseLeave p st = Ok st' ->
   t_paused st' = false /\ t_interval st' = Some (t_now st, t_now st + tp_duration p)
   /\ t_exiting st' = t_exiting st /\ t_timeouts st' = t_timeouts st).
Proof.
  destruct st as [n ps ex iv ts c]; cbn [t_paused t_interval t_exiting t_timeouts t_now].
  split.
  - intros ->. unfold handleMouseEnter, set_paused, toast_effect. simpl.
    rewrite Bool.orb_true_r.
    destruct (opt_call _ _ _); simpl; intros H; [| discriminate].
    injection H as <-. auto.
  - intros -> Hd. unfold handleMouseLeave, set_paused, toast_effect. simpl.
    destruct (Z.leb_spec (tp_duration p) 0) as [Hle | Hgt]; [lia |]. simpl.
    destruct (opt_call _ _ _); simpl; intros H; [| discriminate].
    injection H as <-. auto.
Qed.

Lemma toast_pause_resume_witness :
  let p := mkToastProps "t1" 5000 true JUndefined JUndefined (JFun "onResume") in
  handleMouseLeave p (mkToastState 4000 true false None [] [])
  = Ok (mkToastState 4000 false false (Some (4000, 9000)) [] [("onResume", [JStr "t1"])])
  /\ t_interval (mkToastState 4000 false false (Some (4000, 9000)) [] [("onResume", [JStr "t1"])])
     = Some (4000, 4000 + 5000).
Proof.
  split; [reflexivity |].
  exact (proj1 (proj2 (proj2 (toast_pause_resume
           (mkToastProps "t1" 5000 true JUndefined JUndefined (JFun "onResume"))
           (mkToastState 4000 true false None [] [])
           (mkToastState 4000 false false (Some (4000, 9000)) [] [("onResume", [JStr "t1"])]))
           eq_refl ltac:(simpl; lia) eq_refl))).
Defined.
